(** * Real Estate Management API: a shallow embedding of [main.py] and
    [schemas.py], and the properties of its request handlers.

    Documents are finite maps from field names to BSON values, the four
    collections are lists of stored documents in insertion order, and a
    handler is a function from the world (database, clock, access log) to
    an outcome and a new world. *)

From stdpp Require Import base option list sorting gmap strings.
From Stdlib Require Import Ascii String ZArith NArith Lia.
From Stdlib Require Import Floats.PrimFloat Floats.SpecFloat Floats.FloatOps.

Set Warnings "-register-all".

Local Open Scope string_scope.
Local Open Scope list_scope.
Local Open Scope Z_scope.

(** ** Identifiers

    A [bson.ObjectId] holds the bytes it was made from. The store makes
    identifiers of twelve bytes; such an identifier is kept here as the
    number its bytes spell, most significant byte first, so that the store's
    order on [_id] is the order on [N] below [2 ^ 96]. [ObjectId] also takes
    a string of twenty-four characters that spells fewer than twelve bytes
    (see [fromhex]); an identifier of [n < 12] bytes that spell [v] is kept
    as [2 ^ 96 + 2 ^ (8 * n) + v], a number that belongs to no other byte
    string and to no identifier the store makes. A [string] stands for the
    UTF-8 bytes of a Python [str]. *)

Definition ObjectId := N.

Definition hex_value (c : ascii) : option N :=
  let n := N_of_ascii c in
  if (48 <=? n)%N && (n <=? 57)%N then Some (n - 48)%N
  else if (97 <=? n)%N && (n <=? 102)%N then Some (n - 87)%N
  else if (65 <=? n)%N && (n <=? 70)%N then Some (n - 55)%N
  else None.

(** ASCII whitespace: space, and tab to carriage return. *)
Definition is_space (c : ascii) : bool :=
  let n := N_of_ascii c in
  (n =? 32)%N || ((9 <=? n)%N && (n <=? 13)%N).

(** [bytes.fromhex(s)]: two hexadecimal digits for each byte, ASCII
    whitespace skipped before a byte and at the end; [None] is [ValueError]. *)
Fixpoint fromhex (s : string) : option (list N) :=
  match s with
  | EmptyString => Some []
  | String c rest =>
      if is_space c then fromhex rest
      else
        match hex_value c, rest with
        | Some top, String d rest' =>
            match hex_value d with
            | Some bot => cons (16 * top + bot)%N <$> fromhex rest'
            | None => None
            end
        | _, _ => None
        end
  end.

Definition bytes_value (b : list N) : N :=
  fold_left (λ acc x, 256 * acc + x)%N b 0%N.

Definition ObjectId_of_bytes (b : list N) : ObjectId :=
  if Nat.eqb (List.length b) 12 then bytes_value b
  else (2 ^ 96 + 2 ^ (8 * N.of_nat (List.length b)) + bytes_value b)%N.

(** [ObjectId(id_str)] on a [str]: a string of twenty-four characters that
    [bytes.fromhex] takes, or [InvalidId] (here [None]). *)
Definition ObjectId_of_str (id_str : string) : option ObjectId :=
  if Nat.eqb (String.length id_str) 24
  then ObjectId_of_bytes <$> fromhex id_str
  else None.

(** The spec's words, for comparison with [ObjectId_of_str]: the canonical
    string encoding of a 12-byte identifier is twenty-four hexadecimal
    digits. *)
Definition canonical_id (id_str : string) : bool :=
  Nat.eqb (String.length id_str) 24
  && forallb (λ c, bool_decide (is_Some (hex_value c))) (list_ascii_of_string id_str).

Definition hex_digit (d : N) : ascii :=
  if (d <? 10)%N then ascii_of_N (48 + d) else ascii_of_N (87 + d).

Fixpoint hex_digits (n : nat) (o : N) (acc : string) : string :=
  match n with
  | O => acc
  | S n' => hex_digits n' (o / 16)%N (String (hex_digit (o mod 16)%N) acc)
  end.

(** [str(oid)] of an identifier of twelve bytes: the twenty-four lower-case
    hexadecimal digits. *)
Definition str_of_ObjectId (o : ObjectId) : string := hex_digits 24 o "".

(** The [k] low bytes of [o], most significant first, in front of [acc]. *)
Fixpoint be_bytes (k : nat) (o : N) (acc : list N) : list N :=
  match k with
  | O => acc
  | S k' => be_bytes k' (o / 256)%N ((o mod 256)%N :: acc)
  end.

(** ** BSON values and documents *)

Inductive value :=
| VNone
| VStr (s : string)
| VInt (n : Z)
| VFloat (x : float)
| VBool (b : bool)
| VDate (t : Z)
| VId (o : ObjectId)
| VList (l : list value)
| VDict (l : list (string * value)).

Abbreviation doc := (gmap string value).

(** *** Numbers

    The store compares an integer and a double by the numbers they hold. *)

(** [x ≤ n] for the number a double holds and an integer. *)
Definition SF_leb_Z (x : spec_float) (n : Z) : bool :=
  match x with
  | S754_zero _ => Z.leb 0 n
  | S754_infinity negative => negative
  | S754_nan => false
  | S754_finite s m e =>
      let v := if s then Z.neg m else Z.pos m in
      if Z.leb 0 e then Z.leb (v * 2 ^ e) n else Z.leb v (n * 2 ^ (- e))
  end.

(** [n ≤ x] for an integer and the number a double holds. *)
Definition Z_leb_SF (n : Z) (x : spec_float) : bool :=
  match x with
  | S754_zero _ => Z.leb n 0
  | S754_infinity negative => negb negative
  | S754_nan => false
  | S754_finite s m e =>
      let v := if s then Z.neg m else Z.pos m in
      if Z.leb 0 e then Z.leb n (v * 2 ^ e) else Z.leb (n * 2 ^ (- e)) v
  end.

(** [a ≤ b] for two numbers as the store's [$lte] and [$gte] have it; false
    when one of them is no number. NaN is taken as equal to NaN and is
    compared to nothing else. *)
Definition num_leb (a b : value) : bool :=
  match a, b with
  | VFloat x, VFloat y => PrimFloat.leb x y || (PrimFloat.is_nan x && PrimFloat.is_nan y)
  | VInt n, VInt m => Z.leb n m
  | VInt n, VFloat y => Z_leb_SF n (Prim2SF y)
  | VFloat x, VInt m => SF_leb_Z (Prim2SF x) m
  | _, _ => false
  end.

Definition is_number (v : value) : bool :=
  match v with
  | VInt _ | VFloat _ => true
  | _ => false
  end.

(** BSON has integers of at most eight bytes. *)
Definition int64_ok (n : Z) : bool := Z.leb (- 2 ^ 63) n && Z.ltb n (2 ^ 63).

(** The driver can encode the value: it holds no integer beyond eight bytes. *)
Fixpoint encodable (v : value) : bool :=
  match v with
  | VInt n => int64_ok n
  | VList l =>
      (fix go (l : list value) : bool :=
         match l with
         | [] => true
         | x :: l' => encodable x && go l'
         end) l
  | VDict l =>
      (fix go (l : list (string * value)) : bool :=
         match l with
         | [] => true
         | (_, x) :: l' => encodable x && go l'
         end) l
  | _ => true
  end.

Definition doc_encodable (d : doc) : bool :=
  bool_decide (map_Forall (λ _ v, encodable v = true) d).

(** Equality of two values as the store's equality match sees it: an
    integer and a double are equal when they hold the same number. *)
Fixpoint value_eqb (a b : value) : bool :=
  match a, b with
  | VNone, VNone => true
  | VStr s, VStr t => String.eqb s t
  | VInt n, VInt m => Z.eqb n m
  | VFloat x, VFloat y => PrimFloat.eqb x y || (PrimFloat.is_nan x && PrimFloat.is_nan y)
  | VInt n, VFloat y => num_leb (VInt n) (VFloat y) && num_leb (VFloat y) (VInt n)
  | VFloat x, VInt m => num_leb (VFloat x) (VInt m) && num_leb (VInt m) (VFloat x)
  | VBool x, VBool y => Bool.eqb x y
  | VDate t, VDate u => Z.eqb t u
  | VId o, VId p => N.eqb o p
  | VList l, VList m =>
      (fix go (l m : list value) : bool :=
         match l, m with
         | [], [] => true
         | x :: l', y :: m' => value_eqb x y && go l' m'
         | _, _ => false
         end) l m
  | VDict l, VDict m =>
      (fix go (l m : list (string * value)) : bool :=
         match l, m with
         | [], [] => true
         | (k, x) :: l', (j, y) :: m' => String.eqb k j && value_eqb x y && go l' m'
         | _, _ => false
         end) l m
  | _, _ => false
  end.

(** A document as a collection keeps it: the identifier the store gave it
    and its other fields. *)
Record stored := mkStored { oid : ObjectId; fields : doc }.

(** The document as a query reads it, with its [_id]. *)
Definition document (s : stored) : doc := <["_id" := VId (oid s)]> (fields s).

(** ** Query filters

    The filter mappings [main.py] builds: a field compared for equality,
    [$ne], [$gte]/[$lte], a [$regex] (kept as the predicate the compiled
    pattern decides) and a top-level [$or] of single-field alternatives. *)

Inductive cond :=
| CEq (v : value)
| CNe (v : value)
| CRange (gte lte : option float)
| CRegex (re : string → bool).

Inductive query :=
| QField (c : cond)
| QOr (alternatives : list (gmap string cond)).

Abbreviation filter_spec := (gmap string query).

(** ** Exceptions, outcomes and the world *)

Inductive exn :=
| HTTPException (status_code : Z) (detail : string)
| KeyError (key : string)
| ValueError (message : string)
| OverflowError (message : string).

Inductive outcome (A : Type) :=
| Return (a : A)
| Raise (e : exn).
Arguments Return {A} a.
Arguments Raise {A} e.

Inductive collection := user | property | message | payment.

Inductive access :=
| FindOne (c : collection)
| Find (c : collection)
| InsertOne (c : collection)
| UpdateOne (c : collection)
| DeleteOne (c : collection).

Record Database := mkDatabase {
  users : list stored;
  properties : list stored;
  messages : list stored;
  payments : list stored;
  next_oid : ObjectId
}.

Definition get_collection (c : collection) (d : Database) : list stored :=
  match c with
  | user => users d
  | property => properties d
  | message => messages d
  | payment => payments d
  end.

Definition set_collection (c : collection) (l : list stored) (d : Database) : Database :=
  match c with
  | user => mkDatabase l (properties d) (messages d) (payments d) (next_oid d)
  | property => mkDatabase (users d) l (messages d) (payments d) (next_oid d)
  | message => mkDatabase (users d) (properties d) l (payments d) (next_oid d)
  | payment => mkDatabase (users d) (properties d) (messages d) l (next_oid d)
  end.

(** [db] is the module-level database handle, [clock] what [now_utc] reads,
    [log] the store accesses made so far, oldest first. *)
Record World := mkWorld { db : Database; clock : Z; log : list access }.

Definition M (A : Type) : Type := World → outcome A * World.

Definition ret {A} (a : A) : M A := λ w, (Return a, w).
Definition raise {A} (e : exn) : M A := λ w, (Raise e, w).
Definition bind {A B} (m : M A) (k : A → M B) : M B :=
  λ w, match m w with
       | (Return a, w') => k a w'
       | (Raise e, w') => (Raise e, w')
       end.

#[global] Instance M_ret : MRet M := @ret.
#[global] Instance M_bind : MBind M := λ A B k m, bind m k.

Definition record_access (a : access) : M unit :=
  λ w, (Return tt, mkWorld (db w) (clock w) (log w ++ [a])).

Definition read_db : M Database := λ w, (Return (db w), w).
Definition write_db (d : Database) : M unit :=
  λ w, (Return tt, mkWorld d (clock w) (log w)).

Definition to_object_id (id_str : string) : M ObjectId :=
  match ObjectId_of_str id_str with
  | Some o => mret o
  | None => raise (HTTPException 400 "Invalid ID format")
  end.

Definition now_utc : M value := λ w, (Return (VDate (clock w)), w).

(** ** The document store

    What the handlers use of the driver: [find_one], [find] with its cursor
    methods, [update_one] with [$set], [delete_one]. A field that is absent
    compares as null; [$gte] and [$lte] with a number hold of numbers only. *)

Definition in_range (gte lte : option float) (v : value) : bool :=
  match gte with Some lo => num_leb (VFloat lo) v | None => true end
  && match lte with Some hi => num_leb v (VFloat hi) | None => true end.

Definition holds (c : cond) (v : option value) : bool :=
  match c with
  | CEq x => value_eqb (default VNone v) x
  | CNe x => negb (value_eqb (default VNone v) x)
  | CRange gte lte =>
      match v with
      | Some x => is_number x && in_range gte lte x
      | None => false
      end
  | CRegex re =>
      match v with Some (VStr s) => re s | _ => false end
  end.

Definition alternative_holds (alt : gmap string cond) (d : doc) : bool :=
  bool_decide (map_Forall (λ k c, holds c (d !! k) = true) alt).

Definition query_holds (k : string) (q : query) (d : doc) : bool :=
  match q with
  | QField c => holds c (d !! k)
  | QOr alts => existsb (λ alt, alternative_holds alt d) alts
  end.

Definition matches (f : filter_spec) (d : doc) : bool :=
  bool_decide (map_Forall (λ k q, query_holds k q d = true) f).

Definition selects (f : filter_spec) (s : stored) : bool := matches f (document s).

(** [$set]: the fields of [update] replace or extend those of the document. *)
Definition set_fields (update : doc) (s : stored) : stored :=
  mkStored (oid s) (update ∪ fields s).

Fixpoint update_first (p : stored → bool) (g : stored → stored) (l : list stored)
  : list stored * Z :=
  match l with
  | [] => ([], 0)
  | s :: rest =>
      if p s then (g s :: rest, 1)
      else let '(rest', n) := update_first p g rest in (s :: rest', n)
  end.

Fixpoint delete_first (p : stored → bool) (l : list stored) : list stored * Z :=
  match l with
  | [] => ([], 0)
  | s :: rest =>
      if p s then (rest, 1)
      else let '(rest', n) := delete_first p rest in (s :: rest', n)
  end.

Definition find_one (c : collection) (f : filter_spec) : M (option stored) :=
  record_access (FindOne c);;
  d ← read_db;
  mret (List.find (selects f) (get_collection c d)).

(** What the store does with an update it receives: the first match gets
    the fields; [matched_count] comes back. *)
Definition apply_update (c : collection) (f : filter_spec) (update : doc) : M Z :=
  record_access (UpdateOne c);;
  d ← read_db;
  let '(l, n) := update_first (selects f) (set_fields update) (get_collection c d) in
  write_db (set_collection c l d);;
  mret n.

(** [update_one(filter, {"$set": update})], giving [matched_count]. The
    driver encodes the update before it sends it, and raises when the update
    holds an integer beyond eight bytes: nothing reaches the store then. *)
Definition update_one (c : collection) (f : filter_spec) (update : doc) : M Z :=
  if doc_encodable update
  then apply_update c f update
  else raise (OverflowError "MongoDB can only handle up to 8-byte ints").

(** [delete_one(filter)], giving [deleted_count]. *)
Definition delete_one (c : collection) (f : filter_spec) : M Z :=
  record_access (DeleteOne c);;
  d ← read_db;
  let '(l, n) := delete_first (selects f) (get_collection c d) in
  write_db (set_collection c l d);;
  mret n.

(** *** Cursors: [sort], [skip], [limit] *)

Definition bson_rank (v : option value) : Z :=
  match v with
  | None | Some VNone => 0
  | Some (VInt _) | Some (VFloat _) => 1
  | Some (VStr _) => 2
  | Some (VDict _) => 3
  | Some (VList _) => 4
  | Some (VId _) => 5
  | Some (VBool _) => 6
  | Some (VDate _) => 7
  end.

(** In the order of a sort NaN comes before every other number. *)
Definition key_leb (a b : option value) : bool :=
  match a, b with
  | Some (VId x), Some (VId y) => N.leb x y
  | Some (VFloat x), Some (VFloat y) => PrimFloat.is_nan x || num_leb (VFloat x) (VFloat y)
  | Some (VInt x), Some (VInt y) => num_leb (VInt x) (VInt y)
  | Some (VInt x), Some (VFloat y) => num_leb (VInt x) (VFloat y)
  | Some (VFloat x), Some (VInt y) => PrimFloat.is_nan x || num_leb (VFloat x) (VInt y)
  | Some (VDate x), Some (VDate y) => Z.leb x y
  | Some (VStr x), Some (VStr y) => String.leb x y
  | Some (VBool x), Some (VBool y) => implb x y
  | _, _ => Z.leb (bson_rank a) (bson_rank b)
  end.

(** One entry of a sort specification, [(key, 1)] or [(key, -1)]. *)
Definition sort_leb (spec : string * Z) (a b : stored) : bool :=
  let '(key, direction) := spec in
  if Z.leb 0 direction
  then key_leb (document a !! key) (document b !! key)
  else key_leb (document b !! key) (document a !! key).

Fixpoint insert_by (le : stored → stored → bool) (x : stored) (l : list stored)
  : list stored :=
  match l with
  | [] => [x]
  | y :: rest => if le x y then x :: y :: rest else y :: insert_by le x rest
  end.

Definition cursor_sort (spec : string * Z) (l : list stored) : list stored :=
  foldr (insert_by (sort_leb spec)) [] l.

(** [cursor.skip(n)] raises for a negative [n]. *)
Definition cursor_skip (n : Z) (l : list stored) : M (list stored) :=
  if Z.ltb n 0 then raise (ValueError "skip must be >= 0")
  else mret (drop (Z.to_nat n) l).

(** A limit of [0] is no limit; a negative limit counts as its absolute value. *)
Definition cursor_limit (n : Z) (l : list stored) : list stored :=
  if Z.eqb n 0 then l else take (Z.to_nat (Z.abs n)) l.

(** [db[c].find(f)]: the matching documents in the collection's order; the
    cursor methods above are applied to what it gives. The query is taken as
    the store evaluates it. *)
Definition find (c : collection) (f : filter_spec) : M (list stored) :=
  record_access (Find c);;
  d ← read_db;
  mret (List.filter (selects f) (get_collection c d)).

(** Modelled from the spec: [database.create_document], whose module is not
    among the sources. The document store collaborator's create: the record
    is stored in the named collection under an identifier the store
    generates, and the identifier comes back in its string form. Identifiers
    are handed out in increasing order. *)
Definition create_document (c : collection) (data : doc) : M string :=
  record_access (InsertOne c);;
  d ← read_db;
  let o := next_oid d in
  let d' := set_collection c (get_collection c d ++ [mkStored o data]) d in
  write_db (mkDatabase (users d') (properties d') (messages d') (payments d') (N.succ o));;
  mret (str_of_ObjectId o).

(** [d["id"] = str(d.pop("_id"))] *)
Definition public (s : stored) : doc :=
  <["id" := VStr (str_of_ObjectId (oid s))]> (delete "_id" (document s)).

(** ** Schemas ([schemas.py]) *)

Module Role.
Inductive t := ADMIN | OWNER | BUYER.
Definition str (r : t) : string :=
  match r with ADMIN => "ADMIN" | OWNER => "OWNER" | BUYER => "BUYER" end.
End Role.

Module UserStatus.
Inductive t := ACTIVE | SUSPENDED.
Definition str (s : t) : string :=
  match s with ACTIVE => "ACTIVE" | SUSPENDED => "SUSPENDED" end.
End UserStatus.

Module PropertyType.
Inductive t := APARTMENT | HOUSE | PLOT | COMMERCIAL | INDUSTRIAL.
Definition str (p : t) : string :=
  match p with
  | APARTMENT => "APARTMENT" | HOUSE => "HOUSE" | PLOT => "PLOT"
  | COMMERCIAL => "COMMERCIAL" | INDUSTRIAL => "INDUSTRIAL"
  end.
End PropertyType.

Module PropertyStatus.
Inductive t := ACTIVE | INACTIVE.
Definition str (s : t) : string :=
  match s with ACTIVE => "ACTIVE" | INACTIVE => "INACTIVE" end.
End PropertyStatus.

Module Purpose.
Inductive t := BOOKING | DEPOSIT | OTHER.
Definition str (p : t) : string :=
  match p with BOOKING => "BOOKING" | DEPOSIT => "DEPOSIT" | OTHER => "OTHER" end.
End Purpose.

Module Provider.
Inductive t := RAZORPAY | STRIPE | MANUAL.
Definition str (p : t) : string :=
  match p with RAZORPAY => "RAZORPAY" | STRIPE => "STRIPE" | MANUAL => "MANUAL" end.
End Provider.

Module PaymentStatus.
Inductive t := INITIATED | SUCCESS | FAILED | REFUNDED.
Definition str (s : t) : string :=
  match s with
  | INITIATED => "INITIATED" | SUCCESS => "SUCCESS"
  | FAILED => "FAILED" | REFUNDED => "REFUNDED"
  end.
End PaymentStatus.

(** An optional field in [model_dump()]: [None] is kept as null. *)
Definition dump_opt {A} (f : A → value) (o : option A) : value :=
  match o with Some a => f a | None => VNone end.

(** An optional field in [model_dump(exclude_none=True)]: [None] is left out. *)
Definition put {A} (k : string) (f : A → value) (o : option A) (m : doc) : doc :=
  match o with Some a => <[k := f a]> m | None => m end.

Module User.
Record t := mk {
  full_name : string;
  email : string;
  mobile : string;
  password_hash : option string;
  role : Role.t;
  status : UserStatus.t
}.
(** [User(full_name=.., email=.., mobile=.., password_hash=.., role=..)]:
    [status] is not given and takes its default. *)
Definition new (full_name email mobile : string) (password_hash : option string)
    (role : Role.t) : t :=
  mk full_name email mobile password_hash role UserStatus.ACTIVE.
Definition model_dump (u : t) : doc :=
  <["full_name" := VStr (full_name u)]>
  (<["email" := VStr (email u)]>
  (<["mobile" := VStr (mobile u)]>
  (<["password_hash" := dump_opt VStr (password_hash u)]>
  (<["role" := VStr (Role.str (role u))]>
  (<["status" := VStr (UserStatus.str (status u))]> ∅))))).
End User.

Module PropertyImage.
Record t := mk { file_path : string; is_primary : bool }.
Definition model_dump (i : t) : value :=
  VDict [("file_path", VStr (file_path i)); ("is_primary", VBool (is_primary i))].
End PropertyImage.

Module Property.
Record t := mk {
  owner_id : string;
  title : string;
  description : option string;
  property_type : PropertyType.t;
  price : float;
  currency : string;
  area_sqft : option float;
  bedrooms : option Z;
  bathrooms : option Z;
  parking : option bool;
  furnished : option bool;
  address_line : option string;
  city : option string;
  state : option string;
  pincode : option string;
  latitude : option float;
  longitude : option float;
  verified : bool;
  status : PropertyStatus.t;
  images : list PropertyImage.t
}.
Definition model_dump (p : t) : doc :=
  <["owner_id" := VStr (owner_id p)]>
  (<["title" := VStr (title p)]>
  (<["description" := dump_opt VStr (description p)]>
  (<["property_type" := VStr (PropertyType.str (property_type p))]>
  (<["price" := VFloat (price p)]>
  (<["currency" := VStr (currency p)]>
  (<["area_sqft" := dump_opt VFloat (area_sqft p)]>
  (<["bedrooms" := dump_opt VInt (bedrooms p)]>
  (<["bathrooms" := dump_opt VInt (bathrooms p)]>
  (<["parking" := dump_opt VBool (parking p)]>
  (<["furnished" := dump_opt VBool (furnished p)]>
  (<["address_line" := dump_opt VStr (address_line p)]>
  (<["city" := dump_opt VStr (city p)]>
  (<["state" := dump_opt VStr (state p)]>
  (<["pincode" := dump_opt VStr (pincode p)]>
  (<["latitude" := dump_opt VFloat (latitude p)]>
  (<["longitude" := dump_opt VFloat (longitude p)]>
  (<["verified" := VBool (verified p)]>
  (<["status" := VStr (PropertyStatus.str (status p))]>
  (<["images" := VList (map PropertyImage.model_dump (images p))]> ∅))))))))))))))))))).
End Property.

Module Message.
Record t := mk {
  sender_id : string;
  receiver_id : string;
  property_id : option string;
  subject : string;
  body : string;
  is_read : bool
}.
Definition model_dump (m : t) : doc :=
  <["sender_id" := VStr (sender_id m)]>
  (<["receiver_id" := VStr (receiver_id m)]>
  (<["property_id" := dump_opt VStr (property_id m)]>
  (<["subject" := VStr (subject m)]>
  (<["body" := VStr (body m)]>
  (<["is_read" := VBool (is_read m)]> ∅))))).
End Message.

Module Payment.
Record t := mk {
  buyer_id : string;
  property_id : string;
  amount : float;
  currency : string;
  purpose : Purpose.t;
  provider : option Provider.t;
  provider_payment_id : option string;
  status : PaymentStatus.t
}.
Definition model_dump (p : t) : doc :=
  <["buyer_id" := VStr (buyer_id p)]>
  (<["property_id" := VStr (property_id p)]>
  (<["amount" := VFloat (amount p)]>
  (<["currency" := VStr (currency p)]>
  (<["purpose" := VStr (Purpose.str (purpose p))]>
  (<["provider" := dump_opt (λ x, VStr (Provider.str x)) (provider p)]>
  (<["provider_payment_id" := dump_opt VStr (provider_payment_id p)]>
  (<["status" := VStr (PaymentStatus.str (status p))]> ∅))))))).

(** The fields of a request body before validation: a field with a default
    may be left out. [provider] may also be given as null. *)
Record body := mkBody {
  body_buyer_id : string;
  body_property_id : string;
  body_amount : float;
  body_currency : option string;
  body_purpose : option Purpose.t;
  body_provider : option (option Provider.t);
  body_provider_payment_id : option string;
  body_status : option PaymentStatus.t
}.
(** Validation fills in the defaults the class declares. *)
Definition validate (b : body) : t :=
  mk (body_buyer_id b) (body_property_id b) (body_amount b)
     (default "INR" (body_currency b))
     (default Purpose.BOOKING (body_purpose b))
     (default (Some Provider.MANUAL) (body_provider b))
     (body_provider_payment_id b)
     (default PaymentStatus.INITIATED (body_status b)).
End Payment.

(** ** Request models ([main.py]) *)

Module RegisterRequest.
Record t := mk {
  full_name : string;
  email : string;
  mobile : string;
  password : string;
  role : Role.t
}.
End RegisterRequest.

Module LoginRequest.
Record t := mk { email : string; password : string }.
End LoginRequest.

Module PropertyUpdate.
Record t := mk {
  title : option string;
  description : option string;
  property_type : option string;
  price : option float;
  currency : option string;
  area_sqft : option float;
  bedrooms : option Z;
  bathrooms : option Z;
  parking : option bool;
  furnished : option bool;
  address_line : option string;
  city : option string;
  state : option string;
  pincode : option string;
  latitude : option float;
  longitude : option float;
  status : option string;
  images : option (list (list (string * value)))
}.
(** [body.model_dump(exclude_none=True)] *)
Definition model_dump_exclude_none (b : t) : doc :=
  put "title" VStr (title b)
  (put "description" VStr (description b)
  (put "property_type" VStr (property_type b)
  (put "price" VFloat (price b)
  (put "currency" VStr (currency b)
  (put "area_sqft" VFloat (area_sqft b)
  (put "bedrooms" VInt (bedrooms b)
  (put "bathrooms" VInt (bathrooms b)
  (put "parking" VBool (parking b)
  (put "furnished" VBool (furnished b)
  (put "address_line" VStr (address_line b)
  (put "city" VStr (city b)
  (put "state" VStr (state b)
  (put "pincode" VStr (pincode b)
  (put "latitude" VFloat (latitude b)
  (put "longitude" VFloat (longitude b)
  (put "status" VStr (status b)
  (put "images" (λ l, VList (map VDict l)) (images b) ∅))))))))))))))))).
End PropertyUpdate.

Module VerifyRequest.
Record t := mk { verified : bool }.
End VerifyRequest.

Module PaymentStatusUpdate.
Record t := mk { status : PaymentStatus.t; provider_payment_id : option string }.
End PaymentStatusUpdate.

Module UserStatusUpdate.
Record t := mk { status : UserStatus.t }.
Definition status_str (b : t) : string := UserStatus.str (status b).
End UserStatusUpdate.

Inductive SortOrder := newest | price_asc | price_desc.

(** The response of [list_properties]. *)
Record Listing := mkListing { items : list doc; count : Z }.

(** ** Handlers ([main.py]) *)

(** Python's truth value of an [Optional[str]]: [None] and the empty string
    are false. *)
Definition truthy (o : option string) : option string :=
  match o with
  | Some s => if String.eqb s "" then None else Some s
  | None => None
  end.

Definition by_id (o : ObjectId) : filter_spec := {["_id" := QField (CEq (VId o))]}.

(** [d[k]] *)
Definition getitem (d : doc) (k : string) : M value :=
  match d !! k with
  | Some v => mret v
  | None => raise (KeyError k)
  end.

Fixpoint for_each {A} (l : list A) (body : A → M unit) : M unit :=
  match l with
  | [] => mret tt
  | x :: rest => body x;; for_each rest body
  end.

Definition id_response (new_id : string) : doc := {["id" := VStr new_id]}.

Section Handlers.

(** [sha256(s.encode()).hexdigest()] of [hashlib], and the store's regular
    expression search of a pattern with options in a string. *)
Variable sha256_hexdigest : string → string.
Variable regex_search : string → string → string → bool.

(** *** Auth *)

Definition register (req : RegisterRequest.t) : M doc :=
  existing ← find_one user
    {["$or" := QOr [ {["email" := CEq (VStr (RegisterRequest.email req))]};
                     {["mobile" := CEq (VStr (RegisterRequest.mobile req))]} ]]};
  match existing with
  | Some _ => raise (HTTPException 409 "Email or mobile already registered")
  | None =>
      let password_hash := sha256_hexdigest (RegisterRequest.password req) in
      let u := User.new (RegisterRequest.full_name req) (RegisterRequest.email req)
                 (RegisterRequest.mobile req) (Some password_hash)
                 (RegisterRequest.role req) in
      new_id ← create_document user (User.model_dump u);
      mret (id_response new_id)
  end.

Definition login (req : LoginRequest.t) : M doc :=
  found ← find_one user
    (<["email" := QField (CEq (VStr (LoginRequest.email req)))]>
       {["status" := QField (CEq (VStr "ACTIVE"))]});
  match found with
  | None => raise (HTTPException 401 "Invalid credentials")
  | Some s =>
      let u := document s in
      let hashed := sha256_hexdigest (LoginRequest.password req) in
      if negb (value_eqb (default VNone (u !! "password_hash")) (VStr hashed))
      then raise (HTTPException 401 "Invalid credentials")
      else
        full_name ← getitem u "full_name";
        email ← getitem u "email";
        mobile ← getitem u "mobile";
        role ← getitem u "role";
        mret (<["id" := VStr (str_of_ObjectId (oid s))]>
             (<["full_name" := full_name]>
             (<["email" := email]>
             (<["mobile" := mobile]>
             (<["role" := role]> ∅)))))
  end.

(** *** Properties *)

Definition create_property (req : Property.t) : M doc :=
  o ← to_object_id (Property.owner_id req);
  owner ← find_one user (by_id o);
  match owner with
  | None => raise (HTTPException 404 "Owner not found")
  | Some _ =>
      new_id ← create_document property (Property.model_dump req);
      mret (id_response new_id)
  end.

Definition regex_i (q : string) : cond := CRegex (regex_search q "i").

Definition list_properties_filter (q city state property_type : option string)
    (min_price max_price : option float) (bedrooms bathrooms : option Z)
    (furnished parking : option bool) : filter_spec :=
  let filt : filter_spec := {["status" := QField (CNe (VStr "INACTIVE"))]} in
  let filt := match truthy city with
              | Some c => <["city" := QField (CEq (VStr c))]> filt | None => filt end in
  let filt := match truthy state with
              | Some c => <["state" := QField (CEq (VStr c))]> filt | None => filt end in
  let filt := match truthy property_type with
              | Some c => <["property_type" := QField (CEq (VStr c))]> filt
              | None => filt end in
  let filt := match bedrooms with
              | Some n => <["bedrooms" := QField (CEq (VInt n))]> filt | None => filt end in
  let filt := match bathrooms with
              | Some n => <["bathrooms" := QField (CEq (VInt n))]> filt | None => filt end in
  let filt := match furnished with
              | Some b => <["furnished" := QField (CEq (VBool b))]> filt | None => filt end in
  let filt := match parking with
              | Some b => <["parking" := QField (CEq (VBool b))]> filt | None => filt end in
  let filt := if bool_decide (is_Some min_price) || bool_decide (is_Some max_price)
              then <["price" := QField (CRange min_price max_price)]> filt
              else filt in
  match truthy q with
  | Some q =>
      <["$or" := QOr [ {["title" := regex_i q]}; {["description" := regex_i q]};
                       {["city" := regex_i q]}; {["state" := regex_i q]} ]]> filt
  | None => filt
  end.

Definition sort_spec_of (sort : option SortOrder) : string * Z :=
  match sort with
  | Some price_asc => ("price", 1)
  | Some price_desc => ("price", -1)
  | _ => ("_id", -1)
  end.

Definition list_properties (q city state property_type : option string)
    (min_price max_price : option float) (bedrooms bathrooms : option Z)
    (furnished parking : option bool) (sort : option SortOrder)
    (skip limit : Z) : M Listing :=
  let filt := list_properties_filter q city state property_type min_price max_price
                bedrooms bathrooms furnished parking in
  let sort_spec := sort_spec_of sort in
  found ← find property filt;
  skipped ← cursor_skip (Z.max 0 skip) (cursor_sort sort_spec found);
  let cursor := cursor_limit (Z.min (Z.max 1 limit) 100) skipped in
  let items := map public cursor in
  mret (mkListing items (Z.of_nat (List.length items))).

Definition get_property (property_id : string) : M doc :=
  o ← to_object_id property_id;
  d ← find_one property (by_id o);
  match d with
  | None => raise (HTTPException 404 "Property not found")
  | Some s => mret (public s)
  end.

Definition updated_true : doc := {["updated" := VBool true]}.

Definition update_property (property_id : string) (body : PropertyUpdate.t) : M doc :=
  let update := PropertyUpdate.model_dump_exclude_none body in
  if bool_decide (update = ∅)
  then raise (HTTPException 400 "No fields to update")
  else
    now ← now_utc;
    let update := <["updated_at" := now]> update in
    o ← to_object_id property_id;
    matched_count ← update_one property (by_id o) update;
    if Z.eqb matched_count 0
    then raise (HTTPException 404 "Property not found")
    else mret updated_true.

Definition delete_property (property_id : string) : M doc :=
  o ← to_object_id property_id;
  deleted_count ← delete_one property (by_id o);
  if Z.eqb deleted_count 0
  then raise (HTTPException 404 "Property not found")
  else mret {["deleted" := VBool true]}.

Definition verify_property (property_id : string) (body : VerifyRequest.t) : M doc :=
  o ← to_object_id property_id;
  now ← now_utc;
  matched_count ← update_one property (by_id o)
    (<["verified" := VBool (VerifyRequest.verified body)]> {["updated_at" := now]});
  if Z.eqb matched_count 0
  then raise (HTTPException 404 "Property not found")
  else mret {["verified" := VBool (VerifyRequest.verified body)]}.

(** *** Messages *)

Definition create_message (req : Message.t) : M doc :=
  for_each [Message.sender_id req; Message.receiver_id req] (λ uid,
    o ← to_object_id uid;
    u ← find_one user (by_id o);
    match u with
    | None => raise (HTTPException 404 (String.append "User not found: " uid))
    | Some _ => mret tt
    end);;
  match truthy (Message.property_id req) with
  | Some pid =>
      o ← to_object_id pid;
      p ← find_one property (by_id o);
      match p with
      | None => raise (HTTPException 404 "Property not found")
      | Some _ => mret tt
      end
  | None => mret tt
  end;;
  new_id ← create_document message (Message.model_dump req);
  mret (id_response new_id).

Definition involves (user_id : string) : filter_spec :=
  {["$or" := QOr [ {["sender_id" := CEq (VStr user_id)]};
                   {["receiver_id" := CEq (VStr user_id)]} ]]}.

Definition list_messages (user_id : string) : M (list doc) :=
  uid ← to_object_id user_id;
  found ← find message (involves user_id);
  let msgs := cursor_limit 100 (cursor_sort ("_id", -1) found) in
  mret (map public msgs).

(** *** Payments *)

Definition create_payment (req : Payment.t) : M doc :=
  b ← to_object_id (Payment.buyer_id req);
  buyer ← find_one user (by_id b);
  match buyer with
  | None => raise (HTTPException 404 "Buyer not found")
  | Some _ =>
      p ← to_object_id (Payment.property_id req);
      prop ← find_one property (by_id p);
      match prop with
      | None => raise (HTTPException 404 "Property not found")
      | Some _ =>
          new_id ← create_document payment (Payment.model_dump req);
          mret (id_response new_id)
      end
  end.

Definition list_payments (buyer_id : option string) : M (list doc) :=
  let filt : filter_spec :=
    match truthy buyer_id with
    | Some b => {["buyer_id" := QField (CEq (VStr b))]}
    | None => ∅
    end in
  found ← find payment filt;
  let docs := cursor_limit 100 (cursor_sort ("_id", -1) found) in
  mret (map public docs).

Definition update_payment_status (payment_id : string) (body : PaymentStatusUpdate.t)
  : M doc :=
  now ← now_utc;
  let update : doc :=
    <["status" := VStr (PaymentStatus.str (PaymentStatusUpdate.status body))]>
      {["updated_at" := now]} in
  let update :=
    match truthy (PaymentStatusUpdate.provider_payment_id body) with
    | Some ppid => <["provider_payment_id" := VStr ppid]> update
    | None => update
    end in
  o ← to_object_id payment_id;
  matched_count ← update_one payment (by_id o) update;
  if Z.eqb matched_count 0
  then raise (HTTPException 404 "Payment not found")
  else mret updated_true.

(** *** Admin helpers *)

Definition admin_list_users (limit : Z) : M (list doc) :=
  found ← find user ∅;
  let us := cursor_limit (Z.min limit 200) (cursor_sort ("_id", -1) found) in
  mret (map public us).

Definition admin_update_user_status (user_id : string) (body : UserStatusUpdate.t)
  : M doc :=
  o ← to_object_id user_id;
  now ← now_utc;
  matched_count ← update_one user (by_id o)
    (<["status" := VStr (UserStatusUpdate.status_str body)]> {["updated_at" := now]});
  if Z.eqb matched_count 0
  then raise (HTTPException 404 "User not found")
  else mret updated_true.

End Handlers.

(** ** Specification-side definitions *)

(** A value clamped into the interval from [lo] to [hi]. *)
Definition clamp (lo hi x : Z) : Z :=
  if Z.ltb x lo then lo else if Z.ltb hi x then hi else x.

(** The field holds the string [u]. *)
Definition is_str (u : string) (v : option value) : bool :=
  match v with
  | Some (VStr s) => String.eqb s u
  | _ => false
  end.

(** The user is the sender or the receiver of the message. *)
Definition involved (user_id : string) (m : stored) : bool :=
  is_str user_id (fields m !! "sender_id") || is_str user_id (fields m !! "receiver_id").

(** Identifiers grow along the collection, that is, with insertion. *)
Definition ids_ascending (l : list stored) : Prop :=
  StronglySorted (λ a b, (oid a < oid b)%N) l.



(** The first document is at least as new as the second. *)
Definition newest_first (a b : stored) : Prop := (oid b ≤ oid a)%N.

(** The user has this email and is ACTIVE. *)
Definition active_with_email (email : string) (u : stored) : bool :=
  is_str email (fields u !! "email") && is_str "ACTIVE" (fields u !! "status").

(** The user has this email or this mobile. *)
Definition taken (email mobile : string) (u : stored) : bool :=
  is_str email (fields u !! "email") || is_str mobile (fields u !! "mobile").

(** What [to_object_id] raises. *)
Definition invalid_id : exn := HTTPException 400 "Invalid ID format".

(** The handler failed with 400 or with 404 and the database is as before. *)
Definition refused (r : outcome doc * World) (w : World) : Prop :=
  (∃ detail, fst r = Raise (HTTPException 400 detail)
             ∨ fst r = Raise (HTTPException 404 detail))
  ∧ db (snd r) = db w.

(** All identifiers in the database are below the next one the store will
    hand out, and each collection has its identifiers in ascending order. *)
Definition store_ok (d : Database) : Prop :=
  (∀ c, ids_ascending (get_collection c d))
  ∧ (∀ c x, x ∈ get_collection c d → (oid x < next_oid d)%N).

(** The payment is one the optional buyer filter keeps. *)
Definition paid_by (buyer_id : option string) (p : stored) : bool :=
  match truthy buyer_id with
  | Some b => is_str b (fields p !! "buyer_id")
  | None => true
  end.

(** A computation keeps the order of identifiers. *)
Definition keeps_order {A} (m : M A) : Prop :=
  ∀ w, store_ok (db w) → store_ok (db (snd (m w))).

(** ** A small database for worked requests *)

(** Stands for the digest in the worked requests. *)
Definition sample_digest (s : string) : string := String.append "sha256:" s.

Definition sample_regex (pattern options subject : string) : bool :=
  String.eqb pattern subject.

Definition id_ann : string := "000000000000000000000001".
Definition id_bob : string := "000000000000000000000002".
Definition id_flat : string := "000000000000000000000003".
Definition id_deposit : string := "000000000000000000000007".

Definition ann : stored :=
  mkStored 1%N (User.model_dump
                (User.new "Ann" "ann@example.org" "111"
                   (Some (sample_digest "secret")) Role.OWNER)).

Definition bob : stored :=
  mkStored 2%N (User.model_dump
                (User.new "Bob" "bob@example.org" "222"
                   (Some (sample_digest "hunter2")) Role.BUYER)).

Definition flat : stored :=
  mkStored 3%N (Property.model_dump
                (Property.mk id_ann "Flat" None PropertyType.APARTMENT 250000%float
                   "INR" None (Some 2) (Some 1) None None None (Some "Pune") None
                   None None None false PropertyStatus.ACTIVE [])).

Definition question : stored :=
  mkStored 4%N (Message.model_dump
                (Message.mk id_bob id_ann (Some id_flat) "Flat" "Is it free?" false)).

Definition answer : stored :=
  mkStored 5%N (Message.model_dump
                (Message.mk id_ann id_bob (Some id_flat) "Re: Flat" "Yes." false)).

Definition note : stored :=
  mkStored 6%N (Message.model_dump
                (Message.mk id_bob id_bob None "Note" "Call Ann." false)).

Definition deposit : stored :=
  mkStored 7%N (Payment.model_dump
                (Payment.mk id_bob id_flat 5000%float "INR" Purpose.DEPOSIT
                   (Some Provider.MANUAL) (Some "pay_1") PaymentStatus.INITIATED)).

Definition sample_db : Database :=
  mkDatabase [ann; bob] [flat] [question; answer; note] [deposit] 8%N.

Definition sample_world : World := mkWorld sample_db 1700000000 [].

(** A payment body that leaves status out, and one that gives it. *)
Definition booking_body : Payment.body :=
  Payment.mkBody id_bob id_flat 1000%float None None None None None.

Definition settled_body : Payment.body :=
  Payment.mkBody id_bob id_flat 1000%float None None None None
    (Some PaymentStatus.SUCCESS).



(** Twenty-four characters that spell eight bytes, and twenty-four spaces. *)
Definition spaced_id : string := "00 00 00 00 00 00 00 00 ".

Definition blank_id : string := "                        ".

(** A message whose sender_id is well formed but is no stored user, and
    whose receiver_id is malformed. *)
Definition stray_message : Message.t :=
  Message.mk "00000000000000000000000f" "not-an-id" None "Hi" "?" false.

(** A message whose property_id is the empty string. *)
Definition blank_property_message : Message.t :=
  Message.mk id_bob id_ann (Some "") "Hi" "?" false.

(** A property, a message and a registration to add. *)
Definition villa : Property.t :=
  Property.mk id_ann "Villa" (Some "By the sea") PropertyType.HOUSE 900000%float
    "INR" None (Some 4) (Some 3) (Some true) None None (Some "Goa") None
    None None None false PropertyStatus.ACTIVE [].

Definition greeting : Message.t :=
  Message.mk id_bob id_ann None "Hello" "Good morning." false.

Definition cy_request : RegisterRequest.t :=
  RegisterRequest.mk "Cy" "cy@example.org" "333" "pw" Role.BUYER.

(** * Properties *)

(** ** Values and filters *)

Lemma value_eqb_VStr (x : value) (s : string) :
  value_eqb x (VStr s) = true ↔ x = VStr s.
Proof.
  destruct x; simpl; try (split; [discriminate | congruence]).
  rewrite String.eqb_eq. split; congruence.
Qed.

Lemma value_eqb_VId (x : value) (o : ObjectId) :
  value_eqb x (VId o) = true ↔ x = VId o.
Proof.
  destruct x; simpl; try (split; [discriminate | congruence]).
  rewrite N.eqb_eq. split; congruence.
Qed.

Lemma holds_eq_str (s : string) (v : option value) :
  holds (CEq (VStr s)) v = true ↔ v = Some (VStr s).
Proof.
  unfold holds. rewrite value_eqb_VStr.
  destruct v as [x|]; simpl; split; intros H; try congruence; discriminate.
Qed.

Lemma matches_lookup (f : filter_spec) (d : doc) (k : string) (q : query) :
  matches f d = true → f !! k = Some q → query_holds k q d = true.
Proof.
  unfold matches. rewrite bool_decide_eq_true. intros Hall Hk.
  exact (Hall k q Hk).
Qed.

Lemma matches_singleton (k : string) (q : query) (d : doc) :
  matches {[k := q]} d = query_holds k q d.
Proof.
  unfold matches.
  destruct (query_holds k q d) eqn:E.
  - apply bool_decide_eq_true. by apply map_Forall_singleton.
  - apply bool_decide_eq_false. rewrite map_Forall_singleton. congruence.
Qed.

Lemma alternative_singleton (k : string) (c : cond) (d : doc) :
  alternative_holds {[k := c]} d = holds c (d !! k).
Proof.
  unfold alternative_holds.
  destruct (holds c (d !! k)) eqn:E.
  - apply bool_decide_eq_true. by apply map_Forall_singleton.
  - apply bool_decide_eq_false. rewrite map_Forall_singleton. congruence.
Qed.

Lemma document_lookup_ne (s : stored) (k : string) :
  k ≠ "_id" → document s !! k = fields s !! k.
Proof. intros Hk. unfold document. by rewrite lookup_insert_ne. Qed.

Lemma document_lookup_id (s : stored) : document s !! "_id" = Some (VId (oid s)).
Proof. unfold document. by rewrite lookup_insert_eq. Qed.

Lemma selects_by_id (o : ObjectId) (s : stored) :
  selects (by_id o) s = N.eqb (oid s) o.
Proof.
  unfold selects, by_id. rewrite matches_singleton. simpl.
  by rewrite document_lookup_id.
Qed.

Lemma public_lookup (s : stored) (k : string) :
  k ≠ "id" → k ≠ "_id" → public s !! k = fields s !! k.
Proof.
  intros H1 H2. unfold public.
  rewrite lookup_insert_ne by done. rewrite lookup_delete_ne by done.
  by apply document_lookup_ne.
Qed.

(** ** Cursors *)

Lemma insert_by_perm le (x : stored) (l : list stored) :
  insert_by le x l ≡ₚ x :: l.
Proof.
  induction l as [|y l IH]; simpl; [done|].
  destruct (le x y); [done|]. rewrite IH. apply perm_swap.
Qed.

Lemma cursor_sort_perm (spec : string * Z) (l : list stored) :
  cursor_sort spec l ≡ₚ l.
Proof.
  unfold cursor_sort. induction l as [|x l IH]; simpl; [done|].
  rewrite insert_by_perm. by rewrite IH.
Qed.

Lemma cursor_limit_clamped (n : Z) (l : list stored) :
  1 ≤ n → cursor_limit n l = take (Z.to_nat n) l.
Proof.
  intros Hn. unfold cursor_limit.
  destruct (Z.eqb_spec n 0); [lia|]. by rewrite Z.abs_eq by lia.
Qed.

Lemma elem_of_cursor_limit (n : Z) (l : list stored) (x : stored) :
  x ∈ cursor_limit n l → x ∈ l.
Proof.
  unfold cursor_limit. destruct (Z.eqb n 0); [done|].
  intros H. eapply subseteq_take; eauto.
Qed.

Lemma cursor_skip_nonneg (n : Z) (l : list stored) (w : World) :
  0 ≤ n → cursor_skip n l w = (Return (drop (Z.to_nat n) l), w).
Proof.
  intros Hn. unfold cursor_skip. by destruct (Z.ltb_spec n 0); [lia|].
Qed.

Lemma elem_of_skipped (n : nat) (l : list stored) (x : stored) :
  x ∈ drop n l → x ∈ l.
Proof. intros H. eapply subseteq_drop; eauto. Qed.

Lemma elem_of_cursor_sort (spec : string * Z) (l : list stored) (x : stored) :
  x ∈ cursor_sort spec l ↔ x ∈ l.
Proof. by rewrite cursor_sort_perm. Qed.

Lemma clamp_min_max (limit : Z) : Z.min (Z.max 1 limit) 100 = clamp 1 100 limit.
Proof.
  unfold clamp. destruct (Z.ltb_spec limit 1), (Z.ltb_spec 100 limit); lia.
Qed.

Lemma clamp_bounds (lo hi x : Z) : lo ≤ hi → lo ≤ clamp lo hi x ≤ hi.
Proof.
  intros H. unfold clamp. destruct (Z.ltb_spec x lo), (Z.ltb_spec hi x); lia.
Qed.

(** ** Running a handler *)

Ltac run :=
  repeat (unfold mbind, M_bind, bind, mret, M_ret, ret, raise, record_access,
            read_db, write_db, now_utc, to_object_id, getitem; simpl).

Section Catalog.

Variable regex_search : string → string → string → bool.

Lemma list_properties_filter_status q city state property_type min_price max_price
    bedrooms bathrooms furnished parking :
  list_properties_filter regex_search q city state property_type min_price max_price
      bedrooms bathrooms furnished parking !! "status"
  = Some (QField (CNe (VStr "INACTIVE"))).
Proof.
  unfold list_properties_filter.
  repeat match goal with
         | |- context [match ?o with Some _ => _ | None => _ end] => destruct o
         | |- context [if ?b then _ else _] => destruct b
         end;
    repeat (rewrite lookup_insert_ne by done); by rewrite lookup_singleton_eq.
Qed.

Lemma list_properties_run q city state property_type min_price max_price
    bedrooms bathrooms furnished parking sort skip limit (w : World) :
  list_properties regex_search q city state property_type min_price max_price
    bedrooms bathrooms furnished parking sort skip limit w
  = let filt := list_properties_filter regex_search q city state property_type
                  min_price max_price bedrooms bathrooms furnished parking in
    let page := cursor_limit (Z.min (Z.max 1 limit) 100)
                  (drop (Z.to_nat (Z.max 0 skip))
                     (cursor_sort (sort_spec_of sort)
                        (List.filter (selects filt) (properties (db w))))) in
    (Return (mkListing (map public page) (Z.of_nat (List.length (map public page)))),
     mkWorld (db w) (clock w) (log w ++ [Find property])).
Proof.
  unfold list_properties, find.
  unfold mbind, M_bind, bind, record_access, read_db, mret, M_ret, ret.
  cbn [db clock log get_collection].
  rewrite cursor_skip_nonneg by lia. reflexivity.
Qed.

Lemma selected_not_inactive q city state property_type min_price max_price
    bedrooms bathrooms furnished parking (s : stored) :
  selects (list_properties_filter regex_search q city state property_type min_price
             max_price bedrooms bathrooms furnished parking) s = true →
  fields s !! "status" ≠ Some (VStr "INACTIVE").
Proof.
  intros Hsel Hst. unfold selects in Hsel.
  pose proof (matches_lookup _ _ _ _ Hsel
                (list_properties_filter_status q city state property_type min_price
                   max_price bedrooms bathrooms furnished parking)) as Hq.
  simpl in Hq. rewrite document_lookup_ne in Hq by done.
  rewrite Hst in Hq. simpl in Hq. discriminate.
Qed.

(** C2. Whatever the query filters, [list_properties] answers with a list in
    which no item has status INACTIVE: every item is the public form of a
    stored property that the filter selected, and that property's status is
    not INACTIVE. *)
Theorem list_properties_excludes_inactive q city state property_type min_price
    max_price bedrooms bathrooms furnished parking sort skip limit (w : World) :
  ∃ l : Listing,
    fst (list_properties regex_search q city state property_type min_price max_price
           bedrooms bathrooms furnished parking sort skip limit w) = Return l
    ∧ (∀ item : doc, item ∈ items l →
         item !! "status" ≠ Some (VStr "INACTIVE")
         ∧ ∃ s : stored, s ∈ properties (db w) ∧ item = public s
                         ∧ fields s !! "status" ≠ Some (VStr "INACTIVE")).
Proof.
  eexists. split; [rewrite list_properties_run; reflexivity|].
  cbn [items]. intros item Hitem.
  apply list_elem_of_fmap in Hitem as (s & -> & Hs).
  apply elem_of_cursor_limit, elem_of_skipped in Hs.
  apply elem_of_cursor_sort in Hs.
  apply list_elem_of_In, filter_In in Hs as [Hin Hsel].
  apply selected_not_inactive in Hsel.
  split.
  - by rewrite public_lookup.
  - exists s. by rewrite list_elem_of_In.
Qed.

(** C6. [list_properties] skips [max(0, skip)] of the sorted matches and
    keeps at most [limit] clamped into the interval from 1 to 100 of the
    rest; so a request never gets more than 100 items. *)
Theorem list_properties_pagination q city state property_type min_price
    max_price bedrooms bathrooms furnished parking sort skip limit (w : World) :
  let filt := list_properties_filter regex_search q city state property_type
                min_price max_price bedrooms bathrooms furnished parking in
  let sorted := cursor_sort (sort_spec_of sort)
                  (List.filter (selects filt) (properties (db w))) in
  let page := take (Z.to_nat (clamp 1 100 limit))
                (drop (Z.to_nat (Z.max 0 skip)) sorted) in
  let r := list_properties regex_search q city state property_type min_price
             max_price bedrooms bathrooms furnished parking sort skip limit w in
  fst r = Return (mkListing (map public page) (Z.of_nat (List.length page)))
  ∧ 1 ≤ clamp 1 100 limit ≤ 100
  ∧ (limit < 1 → clamp 1 100 limit = 1)
  ∧ (100 < limit → clamp 1 100 limit = 100)
  ∧ (1 ≤ limit ≤ 100 → clamp 1 100 limit = limit)
  ∧ (List.length page ≤ 100)%nat
  ∧ db (snd r) = db w.
Proof.
  intros filt sorted page r.
  assert (Hb : 1 ≤ clamp 1 100 limit ≤ 100) by (apply clamp_bounds; lia).
  repeat split; try (unfold clamp; destruct (Z.ltb_spec limit 1), (Z.ltb_spec 100 limit); lia).
  - subst r. rewrite list_properties_run. cbn [fst].
    rewrite clamp_min_max, cursor_limit_clamped by lia.
    fold filt. fold sorted. fold page.
    by rewrite length_map.
  - subst page. rewrite length_take. lia.
  - subst r. by rewrite list_properties_run.
Qed.

End Catalog.

(** ** Sorting on [_id] *)

Lemma sort_leb_id_desc (a b : stored) :
  sort_leb ("_id", -1) a b = N.leb (oid b) (oid a).
Proof. unfold sort_leb. simpl. by rewrite !document_lookup_id. Qed.

Lemma insert_by_sorted (x : stored) (l : list stored) :
  StronglySorted newest_first l →
  StronglySorted newest_first (insert_by (sort_leb ("_id", -1)) x l).
Proof.
  induction 1 as [|y l Hl IH Hy]; cbn [insert_by].
  - repeat constructor.
  - rewrite sort_leb_id_desc. destruct (N.leb_spec (oid y) (oid x)) as [Hle|Hlt].
    + constructor; [by constructor|].
      constructor; [done|].
      eapply Forall_impl; [exact Hy|]. unfold newest_first. intros z Hz. lia.
    + constructor; [done|].
      rewrite insert_by_perm. constructor; [unfold newest_first; lia | done].
Qed.

Lemma cursor_sort_id_desc_sorted (l : list stored) :
  StronglySorted newest_first (cursor_sort ("_id", -1) l).
Proof.
  unfold cursor_sort. induction l as [|x l IH]; simpl; [constructor|].
  by apply insert_by_sorted.
Qed.

Lemma insert_by_last (x : stored) (l : list stored) :
  Forall (λ y, (oid x < oid y)%N) l →
  insert_by (sort_leb ("_id", -1)) x l = l ++ [x].
Proof.
  induction 1 as [|y l Hy Hl IH]; cbn [insert_by]; [done|].
  rewrite sort_leb_id_desc. destruct (N.leb_spec (oid y) (oid x)); [lia|].
  by rewrite IH.
Qed.

Lemma cursor_sort_ascending (l : list stored) :
  ids_ascending l → cursor_sort ("_id", -1) l = reverse l.
Proof.
  unfold cursor_sort. induction 1 as [|x l Hl IH Hx]; simpl; [done|].
  rewrite IH, reverse_cons. apply insert_by_last.
  rewrite Forall_forall in *. intros y Hy. apply Hx. by apply elem_of_reverse.
Qed.

Lemma ids_ascending_filter (p : stored → bool) (l : list stored) :
  ids_ascending l → ids_ascending (List.filter p l).
Proof.
  induction 1 as [|x l Hl IH Hx]; simpl; [constructor|].
  destruct (p x); [|done]. constructor; [done|].
  rewrite Forall_forall in *. intros y Hy.
  apply Hx. apply list_elem_of_In in Hy. apply filter_In in Hy as [Hy _].
  by apply list_elem_of_In.
Qed.

(** ** Messages *)

Lemma is_str_spec (u : string) (v : option value) :
  is_str u v = true ↔ v = Some (VStr u).
Proof.
  unfold is_str. destruct v as [[]|]; try (split; [discriminate | congruence]).
  rewrite String.eqb_eq. split; congruence.
Qed.

Lemma holds_eq_is_str (u : string) (v : option value) :
  holds (CEq (VStr u)) v = is_str u v.
Proof. by destruct v as [[]|]. Qed.

Lemma selects_involves (user_id : string) (m : stored) :
  selects (involves user_id) m = involved user_id m.
Proof.
  unfold selects, involves, involved. rewrite matches_singleton. simpl.
  rewrite !alternative_singleton, !holds_eq_is_str.
  rewrite !document_lookup_ne by done. by rewrite orb_false_r.
Qed.

Lemma filter_selects_involves (user_id : string) (l : list stored) :
  List.filter (selects (involves user_id)) l = List.filter (involved user_id) l.
Proof. apply filter_ext. intros m. apply selects_involves. Qed.



(** C10, as the code has it. [list_messages] parses [user_id] as an
    identifier before it queries: a [user_id] that [ObjectId] rejects is
    answered with 400 and the store is not touched. The parsed identifier is
    not used afterwards: for a [user_id] that [ObjectId] takes the answer is
    made of the messages whose sender_id or receiver_id is the string
    [user_id] itself. *)
Theorem list_messages_parses_user_id (user_id : string) (w : World) :
  (ObjectId_of_str user_id = None →
   list_messages user_id w = (Raise (HTTPException 400 "Invalid ID format"), w))
  ∧ (∀ o : ObjectId, ObjectId_of_str user_id = Some o →
     fst (list_messages user_id w)
     = Return (map public
                 (cursor_limit 100
                    (cursor_sort ("_id", -1)
                       (List.filter (involved user_id) (messages (db w))))))).
Proof.
  split.
  - intros Hid. unfold list_messages. run. by rewrite Hid.
  - intros o Hid. unfold list_messages, find. run. rewrite Hid. simpl.
    by rewrite filter_selects_involves.
Qed.

(** ** Looking up one document *)

Lemma matches_insert (k : string) (q : query) (f : filter_spec) (d : doc) :
  f !! k = None →
  matches (<[k := q]> f) d = query_holds k q d && matches f d.
Proof.
  intros Hk. unfold matches.
  destruct (query_holds k q d) eqn:Eq; simpl.
  - apply bool_decide_ext. rewrite map_Forall_insert by done.
    split; [intros [_ Hf]; exact Hf | intros Hf; split; [exact Eq | exact Hf]].
  - apply bool_decide_eq_false. rewrite map_Forall_insert by done.
    intros [Hq _]. congruence.
Qed.

Lemma find_absent (p : stored → bool) (l : list stored) :
  (∀ x, x ∈ l → p x = false) → List.find p l = None.
Proof.
  induction l as [|y l IH]; simpl; [done|].
  intros H. rewrite (H y) by apply list_elem_of_here.
  apply IH. intros x Hx. apply H. by apply list_elem_of_further.
Qed.

Lemma find_first (p : stored → bool) (l1 l2 : list stored) (u : stored) :
  Forall (λ x, p x = false) l1 → p u = true →
  List.find p (l1 ++ u :: l2) = Some u.
Proof.
  intros Hl1 Hu. induction Hl1 as [|y l1 Hy _ IH]; simpl.
  - by rewrite Hu.
  - by rewrite Hy.
Qed.

Lemma find_present (p : stored → bool) (l : list stored) (x : stored) :
  x ∈ l → p x = true → ∃ u, List.find p l = Some u.
Proof.
  intros Hx Hp. destruct (List.find p l) as [u|] eqn:E; [by exists u|].
  apply list_elem_of_In in Hx. pose proof (find_none _ _ E x Hx). congruence.
Qed.

Lemma update_first_absent p g (l : list stored) :
  (∀ x, x ∈ l → p x = false) → update_first p g l = (l, 0).
Proof.
  induction l as [|y l IH]; simpl; [done|].
  intros H. rewrite (H y) by apply list_elem_of_here.
  rewrite IH; [done|]. intros x Hx. apply H. by apply list_elem_of_further.
Qed.

Lemma update_first_found p g (l1 l2 : list stored) (u : stored) :
  Forall (λ x, p x = false) l1 → p u = true →
  update_first p g (l1 ++ u :: l2) = (l1 ++ g u :: l2, 1).
Proof.
  intros Hl1 Hu. induction Hl1 as [|y l1 Hy _ IH]; simpl.
  - by rewrite Hu.
  - by rewrite Hy, IH.
Qed.

Lemma delete_first_absent p (l : list stored) :
  (∀ x, x ∈ l → p x = false) → delete_first p l = (l, 0).
Proof.
  induction l as [|y l IH]; simpl; [done|].
  intros H. rewrite (H y) by apply list_elem_of_here.
  rewrite IH; [done|]. intros x Hx. apply H. by apply list_elem_of_further.
Qed.

Lemma set_collection_same (c : collection) (d : Database) :
  set_collection c (get_collection c d) d = d.
Proof. by destruct c, d. Qed.

(** ** Auth *)

Lemma selects_login (email : string) (s : stored) :
  selects (<["email" := QField (CEq (VStr email))]>
             {["status" := QField (CEq (VStr "ACTIVE"))]}) s
  = active_with_email email s.
Proof.
  unfold selects, active_with_email.
  rewrite matches_insert by done. rewrite matches_singleton.
  unfold query_holds. rewrite !holds_eq_is_str.
  by rewrite !document_lookup_ne by done.
Qed.

Lemma selects_register (email mobile : string) (s : stored) :
  selects {["$or" := QOr [ {["email" := CEq (VStr email)]};
                           {["mobile" := CEq (VStr mobile)]} ]]} s
  = taken email mobile s.
Proof.
  unfold selects, taken. rewrite matches_singleton. simpl.
  rewrite !alternative_singleton, !holds_eq_is_str.
  rewrite !document_lookup_ne by done. by rewrite orb_false_r.
Qed.

Lemma active_with_email_spec (email : string) (u : stored) :
  active_with_email email u = true ↔
  fields u !! "email" = Some (VStr email) ∧ fields u !! "status" = Some (VStr "ACTIVE").
Proof. unfold active_with_email. by rewrite andb_true_iff, !is_str_spec. Qed.


Arguments selects : simpl never.
Arguments public : simpl never.
Arguments str_of_ObjectId : simpl never.
Arguments truthy : simpl never.

Lemma truthy_Some (o : option string) (s : string) :
  truthy o = Some s ↔ o = Some s ∧ s ≠ "".
Proof.
  unfold truthy. destruct o as [t|]; [|split; [discriminate | intros [? _]; discriminate]].
  destruct (String.eqb_spec t "") as [->|Hne].
  - split; [discriminate|]. intros [Ht Hs]. congruence.
  - split; [intros Ht; split; congruence | intros [Ht _]; congruence].
Qed.

Lemma truthy_None (o : option string) :
  truthy o = None ↔ o = None ∨ o = Some "".
Proof.
  unfold truthy. destruct o as [t|]; [|split; [by left | done]].
  destruct (String.eqb_spec t "") as [->|Hne].
  - split; [by right | done].
  - split; [discriminate|]. intros [?|?]; congruence.
Qed.

Section Auth.

Variable sha256_hexdigest : string → string.

Lemma user_dump_fields (u : User.t) :
  User.model_dump u !! "full_name" = Some (VStr (User.full_name u))
  ∧ User.model_dump u !! "email" = Some (VStr (User.email u))
  ∧ User.model_dump u !! "mobile" = Some (VStr (User.mobile u))
  ∧ User.model_dump u !! "password_hash" = Some (dump_opt VStr (User.password_hash u))
  ∧ User.model_dump u !! "role" = Some (VStr (Role.str (User.role u)))
  ∧ User.model_dump u !! "status" = Some (VStr (UserStatus.str (User.status u)))
  ∧ dom (User.model_dump u)
    = ({["full_name"; "email"; "mobile"; "password_hash"; "role"; "status"]} : gset string).
Proof.
  unfold User.model_dump.
  split; [|split; [|split; [|split; [|split; [|split]]]]];
    try (repeat (rewrite lookup_insert_ne by done); by rewrite lookup_insert_eq).
  rewrite !dom_insert_L, dom_empty_L. set_solver.
Qed.


(** C4. [login] answers 401 when no stored user has the request's email
    together with status ACTIVE, and when the first such user's stored
    password_hash is not the digest of the supplied password. Otherwise it
    returns the five fields id, full_name, email, mobile and role of that
    user and nothing else, so no password_hash. The store is never changed. *)
Theorem login_unauthorized_or_public_fields (req : LoginRequest.t) (w : World) :
  let r := login sha256_hexdigest req w in
  let email := LoginRequest.email req in
  let digest := sha256_hexdigest (LoginRequest.password req) in
  db (snd r) = db w
  ∧ ((∀ u, u ∈ users (db w) →
         ¬ (fields u !! "email" = Some (VStr email)
            ∧ fields u !! "status" = Some (VStr "ACTIVE"))) →
     fst r = Raise (HTTPException 401 "Invalid credentials"))
  ∧ (∀ (l1 l2 : list stored) (u : stored),
       users (db w) = l1 ++ u :: l2 →
       Forall (λ x, ¬ (fields x !! "email" = Some (VStr email)
                       ∧ fields x !! "status" = Some (VStr "ACTIVE"))) l1 →
       fields u !! "email" = Some (VStr email) →
       fields u !! "status" = Some (VStr "ACTIVE") →
       (fields u !! "password_hash" ≠ Some (VStr digest) →
        fst r = Raise (HTTPException 401 "Invalid credentials"))
       ∧ (fields u !! "password_hash" = Some (VStr digest) →
          ∀ full_name mobile role : value,
            fields u !! "full_name" = Some full_name →
            fields u !! "mobile" = Some mobile →
            fields u !! "role" = Some role →
            ∃ resp : doc,
              fst r = Return resp
              ∧ resp !! "id" = Some (VStr (str_of_ObjectId (oid u)))
              ∧ resp !! "full_name" = Some full_name
              ∧ resp !! "email" = Some (VStr email)
              ∧ resp !! "mobile" = Some mobile
              ∧ resp !! "role" = Some role
              ∧ resp !! "password_hash" = None
              ∧ dom resp = ({["id"; "full_name"; "email"; "mobile"; "role"]}
                            : gset string))).
Proof.
  intros r email digest. subst r. unfold login, find_one.
  split; [|split].
  - run. fold email digest.
    destruct (List.find _ _) as [s|]; [|destruct w as [[]]; reflexivity].
    simpl. destruct (negb _); [destruct w as [[]]; reflexivity|].
    repeat (rewrite document_lookup_ne by done).
    repeat (destruct (fields s !! _); simpl; [|destruct w as [[]]; reflexivity]).
    destruct w as [[]]; reflexivity.
  - intros Hnone. run. fold email.
    rewrite find_absent; [done|].
    intros x Hx. rewrite selects_login. apply not_true_iff_false.
    rewrite active_with_email_spec. by apply Hnone.
  - intros l1 l2 u Husers Hl1 Hemail Hstatus. run. fold email digest.
    rewrite Husers, find_first.
    2:{ eapply Forall_impl; [exact Hl1|]. intros x Hx. simpl in Hx.
        rewrite selects_login. apply not_true_iff_false.
        by rewrite active_with_email_spec. }
    2:{ rewrite selects_login. by apply active_with_email_spec. }
    simpl. rewrite !document_lookup_ne by done. split.
    + intros Hhash.
      destruct (value_eqb _ _) eqn:E; [|done].
      apply value_eqb_VStr in E. exfalso. apply Hhash.
      destruct (fields u !! "password_hash"); simpl in E; congruence.
    + intros Hhash full_name mobile role Hf Hm Hr.
      rewrite Hhash, Hf, Hemail, Hm, Hr. simpl.
      rewrite String.eqb_refl. simpl.
      eexists. split; [reflexivity|].
      split; [|split; [|split; [|split; [|split; [|split]]]]];
        try (repeat (rewrite lookup_insert_ne by done);
             first [by rewrite lookup_insert_eq | by rewrite lookup_empty]).
      rewrite !dom_insert_L, dom_empty_L. set_solver.
Qed.

End Auth.

(** ** Looking up by identifier *)

Lemma find_by_id_absent (o : ObjectId) (l : list stored) :
  (∀ x, x ∈ l → oid x ≠ o) → List.find (selects (by_id o)) l = None.
Proof.
  intros H. apply find_absent. intros x Hx.
  rewrite selects_by_id. apply N.eqb_neq. by apply H.
Qed.

Lemma find_by_id_present (o : ObjectId) (l : list stored) :
  (∃ x, x ∈ l ∧ oid x = o) → ∃ u, List.find (selects (by_id o)) l = Some u.
Proof.
  intros (x & Hx & Ho). apply (find_present _ _ x Hx).
  rewrite selects_by_id. by apply N.eqb_eq.
Qed.

Lemma update_by_id_absent (o : ObjectId) g (l : list stored) :
  (∀ x, x ∈ l → oid x ≠ o) → update_first (selects (by_id o)) g l = (l, 0).
Proof.
  intros H. apply update_first_absent. intros x Hx.
  rewrite selects_by_id. apply N.eqb_neq. by apply H.
Qed.

Lemma update_by_id_found (o : ObjectId) g (l1 l2 : list stored) (s : stored) :
  Forall (λ x, oid x ≠ o) l1 → oid s = o →
  update_first (selects (by_id o)) g (l1 ++ s :: l2) = (l1 ++ g s :: l2, 1).
Proof.
  intros Hl1 Hs. apply update_first_found.
  - eapply Forall_impl; [exact Hl1|]. intros x Hx. simpl in Hx.
    rewrite selects_by_id. by apply N.eqb_neq.
  - rewrite selects_by_id. by apply N.eqb_eq.
Qed.

Lemma set_fields_lookup (update : doc) (s : stored) (k : string) :
  fields (set_fields update s) !! k
  = match update !! k with Some v => Some v | None => fields s !! k end.
Proof.
  unfold set_fields. simpl. rewrite lookup_union.
  destruct (update !! k), (fields s !! k); done.
Qed.

(** ** Updates the driver can encode *)

Arguments doc_encodable : simpl never.

Lemma doc_encodable_lookup (d : doc) :
  doc_encodable d = true ↔ ∀ k v, d !! k = Some v → encodable v = true.
Proof. unfold doc_encodable. by rewrite bool_decide_eq_true. Qed.

Lemma doc_encodable_empty : doc_encodable ∅ = true.
Proof. apply doc_encodable_lookup. intros k v H. by rewrite lookup_empty in H. Qed.

Lemma doc_encodable_insert (k : string) (v : value) (d : doc) :
  encodable v = true → doc_encodable d = true → doc_encodable (<[k := v]> d) = true.
Proof.
  rewrite !doc_encodable_lookup. intros Hv Hd j x.
  destruct (decide (k = j)) as [->|Hne].
  - rewrite lookup_insert_eq. by intros [= <-].
  - rewrite lookup_insert_ne by done. apply Hd.
Qed.

Lemma doc_encodable_singleton (k : string) (v : value) :
  encodable v = true → doc_encodable ({[k := v]} : doc) = true.
Proof.
  intros Hv. rewrite <- insert_empty.
  apply doc_encodable_insert; [done | apply doc_encodable_empty].
Qed.

Lemma update_one_encodable (c : collection) (f : filter_spec) (update : doc) :
  doc_encodable update = true → update_one c f update = apply_update c f update.
Proof. intros H. unfold update_one. by rewrite H. Qed.


Ltac encodes :=
  repeat first [ apply doc_encodable_insert | apply doc_encodable_singleton
               | apply doc_encodable_empty ];
  reflexivity.

(** ** Payments *)

Lemma payment_dump_status (req : Payment.t) :
  Payment.model_dump req !! "status"
  = Some (VStr (PaymentStatus.str (Payment.status req))).
Proof.
  unfold Payment.model_dump.
  repeat (rewrite lookup_insert_ne by done). by rewrite lookup_insert_eq.
Qed.

(** C1, as the code has it. For a payment-create request whose buyer_id and
    property_id resolve to a stored user and a stored property,
    [create_payment] appends one payment made of the request's fields under
    the next identifier of the store and returns that identifier; the status
    of the new payment is the status the request gives, and INITIATED when
    the request gives none. *)
Theorem create_payment_inserts_request_status (body : Payment.body)
    (b p : ObjectId) (w : World) :
  let req := Payment.validate body in
  let r := create_payment req w in
  ObjectId_of_str (Payment.buyer_id req) = Some b →
  (∃ u, u ∈ users (db w) ∧ oid u = b) →
  ObjectId_of_str (Payment.property_id req) = Some p →
  (∃ x, x ∈ properties (db w) ∧ oid x = p) →
  ∃ new : stored,
    fst r = Return (id_response (str_of_ObjectId (oid new)))
    ∧ oid new = next_oid (db w)
    ∧ payments (db (snd r)) = payments (db w) ++ [new]
    ∧ fields new = Payment.model_dump req
    ∧ fields new !! "status"
      = Some (VStr (PaymentStatus.str
                      (default PaymentStatus.INITIATED (Payment.body_status body))))
    ∧ (Payment.body_status body = None →
       fields new !! "status" = Some (VStr "INITIATED"))
    ∧ users (db (snd r)) = users (db w)
    ∧ properties (db (snd r)) = properties (db w)
    ∧ messages (db (snd r)) = messages (db w).
Proof.
  intros req r Hb Hu Hp Hx. subst r req. simpl in Hb, Hp.
  apply find_by_id_present in Hu as [u Hu]. apply find_by_id_present in Hx as [x Hx].
  unfold create_payment, find_one, create_document. run.
  rewrite Hb. simpl. rewrite Hu. simpl. rewrite Hp. simpl. rewrite Hx. simpl.
  clear Hu Hx.
  eexists (mkStored _ _). simpl.
  split; [reflexivity|]. split; [reflexivity|]. split; [reflexivity|].
  split; [reflexivity|]. split; [apply payment_dump_status|].
  split; [|split; [reflexivity|split; reflexivity]].
  intros Hnone. rewrite payment_dump_status. simpl. by rewrite Hnone.
Qed.

(** C7. On a payment that exists, [update_payment_status] sets status and
    updated_at, sets provider_payment_id exactly when the body carries a
    non-empty one, and leaves every other field and every other document as
    it was; on an identifier no payment has it answers 404 and the store is
    unchanged. *)
Theorem update_payment_status_frame (payment_id : string)
    (body : PaymentStatusUpdate.t) (o : ObjectId) (w : World) :
  let r := update_payment_status payment_id body w in
  ObjectId_of_str payment_id = Some o →
  (∀ (l1 l2 : list stored) (s : stored),
     payments (db w) = l1 ++ s :: l2 →
     Forall (λ x, oid x ≠ o) l1 →
     oid s = o →
     ∃ s' : stored,
       fst r = Return updated_true
       ∧ payments (db (snd r)) = l1 ++ s' :: l2
       ∧ oid s' = o
       ∧ fields s' !! "status"
         = Some (VStr (PaymentStatus.str (PaymentStatusUpdate.status body)))
       ∧ fields s' !! "updated_at" = Some (VDate (clock w))
       ∧ (∀ ppid, PaymentStatusUpdate.provider_payment_id body = Some ppid →
            ppid ≠ "" →
            fields s' !! "provider_payment_id" = Some (VStr ppid))
       ∧ (PaymentStatusUpdate.provider_payment_id body = None
          ∨ PaymentStatusUpdate.provider_payment_id body = Some "" →
          fields s' !! "provider_payment_id" = fields s !! "provider_payment_id")
       ∧ (∀ k, k ≠ "status" → k ≠ "updated_at" → k ≠ "provider_payment_id" →
            fields s' !! k = fields s !! k)
       ∧ users (db (snd r)) = users (db w)
       ∧ properties (db (snd r)) = properties (db w)
       ∧ messages (db (snd r)) = messages (db w)
       ∧ next_oid (db (snd r)) = next_oid (db w))
  ∧ ((∀ x, x ∈ payments (db w) → oid x ≠ o) →
     fst r = Raise (HTTPException 404 "Payment not found")
     ∧ db (snd r) = db w).
Proof.
  intros r Hid. subst r. unfold update_payment_status. split.
  - intros l1 l2 s Hpay Hl1 Hs. run. rewrite Hid. simpl.
    destruct (truthy (PaymentStatusUpdate.provider_payment_id body)) as [p|] eqn:Et;
      rewrite update_one_encodable by encodes;
      unfold apply_update; run; rewrite Hpay;
      rewrite update_by_id_found by done; simpl;
      (eexists; split; [reflexivity|]; split; [reflexivity|]; split; [done|]).
    + apply truthy_Some in Et as [Hp Hne].
      split; [by rewrite set_fields_lookup, lookup_insert_ne, lookup_insert_eq|].
      split; [by rewrite set_fields_lookup, !lookup_insert_ne, lookup_singleton_eq|].
      split; [intros ppid Hppid _; rewrite set_fields_lookup, lookup_insert_eq;
              congruence|].
      split; [intros [Hn|Hn]; congruence|].
      split; [|done].
      intros k H1 H2 H3. rewrite set_fields_lookup.
      by rewrite !lookup_insert_ne, lookup_singleton_ne.
    + apply truthy_None in Et.
      split; [by rewrite set_fields_lookup, lookup_insert_eq|].
      split; [by rewrite set_fields_lookup, lookup_insert_ne, lookup_singleton_eq|].
      split; [intros ppid Hppid Hne; destruct Et; congruence|].
      split; [intros _; rewrite set_fields_lookup;
              by rewrite lookup_insert_ne, lookup_singleton_ne|].
      split; [|done].
      intros k H1 H2 H3. rewrite set_fields_lookup.
      by rewrite lookup_insert_ne, lookup_singleton_ne.
  - intros Habs. run. rewrite Hid. simpl.
    destruct (truthy (PaymentStatusUpdate.provider_payment_id body));
      rewrite update_one_encodable by encodes;
      unfold apply_update; run;
      rewrite update_by_id_absent by done; simpl;
      (split; [reflexivity|]; destruct w as [[]]; reflexivity).
Qed.

(** ** Updating a property *)










(** ** Malformed identifiers *)

(** C9, as the code has it. Malformed is what [ObjectId] rejects: a string
    that is not twenty-four characters long, or that [bytes.fromhex] does
    not take. An identifier from the path that is malformed, and a malformed
    owner_id, sender_id or buyer_id in a body, is answered with 400 before
    any store access and nothing is changed. A malformed receiver_id,
    non-empty message property_id or payment property_id is parsed only
    after the identifiers before it were looked up: it is answered with 400
    when those resolve, and in every case the request fails with 400 or 404
    and the database is unchanged. An empty message property_id is not
    parsed at all: when sender and receiver resolve the message is stored
    with it. *)
Theorem malformed_id_rejected (bad : string) (w : World) :
  ObjectId_of_str bad = None →
  get_property bad w = (Raise invalid_id, w)
  ∧ (∀ body, ∃ detail,
       update_property bad body w = (Raise (HTTPException 400 detail), w))
  ∧ delete_property bad w = (Raise invalid_id, w)
  ∧ (∀ body, verify_property bad body w = (Raise invalid_id, w))
  ∧ (∀ body, update_payment_status bad body w = (Raise invalid_id, w))
  ∧ (∀ body, admin_update_user_status bad body w = (Raise invalid_id, w))
  ∧ (∀ req, Property.owner_id req = bad →
       create_property req w = (Raise invalid_id, w))
  ∧ (∀ req, Message.sender_id req = bad →
       create_message req w = (Raise invalid_id, w))
  ∧ (∀ req, Payment.buyer_id req = bad →
       create_payment req w = (Raise invalid_id, w))
  ∧ (∀ req, Message.receiver_id req = bad →
       refused (create_message req w) w
       ∧ ∀ o, ObjectId_of_str (Message.sender_id req) = Some o →
              (∃ u, u ∈ users (db w) ∧ oid u = o) →
              fst (create_message req w) = Raise invalid_id)
  ∧ (∀ req, Message.property_id req = Some bad → bad ≠ "" →
       refused (create_message req w) w
       ∧ ∀ o1 o2, ObjectId_of_str (Message.sender_id req) = Some o1 →
                  (∃ u, u ∈ users (db w) ∧ oid u = o1) →
                  ObjectId_of_str (Message.receiver_id req) = Some o2 →
                  (∃ u, u ∈ users (db w) ∧ oid u = o2) →
                  fst (create_message req w) = Raise invalid_id)
  ∧ (∀ req, Payment.property_id req = bad →
       refused (create_payment req w) w
       ∧ ∀ o, ObjectId_of_str (Payment.buyer_id req) = Some o →
              (∃ u, u ∈ users (db w) ∧ oid u = o) →
              fst (create_payment req w) = Raise invalid_id)
  ∧ (∀ req, Message.property_id req = Some bad → bad = "" →
       ∀ o1 o2, ObjectId_of_str (Message.sender_id req) = Some o1 →
                (∃ u, u ∈ users (db w) ∧ oid u = o1) →
                ObjectId_of_str (Message.receiver_id req) = Some o2 →
                (∃ u, u ∈ users (db w) ∧ oid u = o2) →
                fst (create_message req w)
                = Return (id_response (str_of_ObjectId (next_oid (db w))))
                ∧ messages (db (snd (create_message req w)))
                  = messages (db w)
                    ++ [mkStored (next_oid (db w)) (Message.model_dump req)]
                ∧ Message.model_dump req !! "property_id" = Some (VStr "")).
Proof.
  intros Hbad. unfold invalid_id.
  split; [by unfold get_property; run; rewrite Hbad|].
  split.
  { intros body. unfold update_property. case_bool_decide.
    - by eexists.
    - eexists. run. by rewrite Hbad. }
  split; [by unfold delete_property; run; rewrite Hbad|].
  split; [by intros body; unfold verify_property; run; rewrite Hbad|].
  split; [by intros body; unfold update_payment_status; run; rewrite Hbad|].
  split; [by intros body; unfold admin_update_user_status; run; rewrite Hbad|].
  split; [by intros req <-; unfold create_property; run; rewrite Hbad|].
  split; [by intros req <-; unfold create_message; run; rewrite Hbad|].
  split; [by intros req <-; unfold create_payment; run; rewrite Hbad|].
  split; [|split; [|split]].
  - intros req <-. unfold refused, create_message, find_one. run.
    destruct (ObjectId_of_str (Message.sender_id req)) as [o|] eqn:Es; simpl.
    + destruct (List.find _ _) as [u|] eqn:Ef; simpl.
      * rewrite Hbad. simpl. split; [split; [eauto|done]|done].
      * split; [split; [eauto|done]|].
        intros o' Ho' Hex. simplify_eq.
        apply find_by_id_present in Hex as [u Hu]. congruence.
    + split; [split; [eauto|destruct w as [[]]; reflexivity]|]. intros; congruence.
  - intros req Hpid Hne. unfold refused, create_message, find_one. run.
    assert (Ht : truthy (Some bad) = Some bad) by by apply truthy_Some.
    rewrite Hpid, Ht. simpl.
    destruct (ObjectId_of_str (Message.sender_id req)) as [o1|] eqn:Es; simpl.
    2:{ split; [split; [eauto|destruct w as [[]]; reflexivity]|]. intros; congruence. }
    destruct (List.find (selects (by_id o1)) _) as [u1|] eqn:Ef1; simpl.
    2:{ split; [split; [eauto|done]|].
        intros o1' o2' Ho1 Hex1. simplify_eq.
        apply find_by_id_present in Hex1 as [u Hu]. congruence. }
    destruct (ObjectId_of_str (Message.receiver_id req)) as [o2|] eqn:Er; simpl.
    2:{ split; [split; [eauto|done]|]. intros; congruence. }
    destruct (List.find (selects (by_id o2)) _) as [u2|] eqn:Ef2; simpl.
    2:{ split; [split; [eauto|done]|].
        intros o1' o2' Ho1 Hex1 Ho2 Hex2. simplify_eq.
        apply find_by_id_present in Hex2 as [u Hu]. congruence. }
    rewrite Hbad. simpl. split; [split; [eauto|done]|done].
  - intros req <-. unfold refused, create_payment, find_one. run.
    destruct (ObjectId_of_str (Payment.buyer_id req)) as [o|] eqn:Es; simpl.
    + destruct (List.find _ _) as [u|] eqn:Ef; simpl.
      * rewrite Hbad. simpl. split; [split; [eauto|done]|done].
      * split; [split; [eauto|done]|].
        intros o' Ho' Hex. simplify_eq.
        apply find_by_id_present in Hex as [u Hu]. congruence.
    + split; [split; [eauto|destruct w as [[]]; reflexivity]|]. intros; congruence.
  - intros req Hpid -> o1 o2 Ho1 Hex1 Ho2 Hex2.
    apply find_by_id_present in Hex1 as [u Hu].
    apply find_by_id_present in Hex2 as [v Hv].
    assert (Ht : truthy (Message.property_id req) = None)
      by (apply truthy_None; by right).
    unfold create_message, find_one, create_document. run.
    rewrite Ho1. simpl. rewrite Hu. simpl. rewrite Ho2. simpl. rewrite Hv. simpl.
    rewrite Ht. simpl.
    split; [reflexivity|]. split; [reflexivity|].
    unfold Message.model_dump. rewrite Hpid.
    repeat (rewrite lookup_insert_ne by done). by rewrite lookup_insert_eq.
Qed.

(** * Worked requests *)


(** C1, witness: a booking whose body leaves status out is stored with
    status INITIATED. *)
Lemma create_payment_booking_witness :
  ∃ new : stored,
    payments (db (snd (create_payment (Payment.validate booking_body) sample_world)))
    = [deposit; new]
    ∧ oid new = 8%N
    ∧ fields new !! "status" = Some (VStr "INITIATED").
Proof.
  destruct (create_payment_inserts_request_status booking_body 2%N 3%N sample_world)
    as (new & _ & Hid & Hpay & _ & _ & Hst & _).
  - reflexivity.
  - exists bob. split; [|reflexivity]. apply list_elem_of_further, list_elem_of_here.
  - reflexivity.
  - exists flat. split; [|reflexivity]. apply list_elem_of_here.
  - exists new. split; [exact Hpay|]. split; [exact Hid|]. apply Hst. reflexivity.
Defined.

(** C1, counterexample: buyer and property resolve, the body gives status
    SUCCESS, and the payment stored has status SUCCESS, not INITIATED. *)
Lemma create_payment_settled_counterexample :
  ObjectId_of_str (Payment.buyer_id (Payment.validate settled_body)) = Some 2%N
  ∧ bob ∈ users (db sample_world)
  ∧ ObjectId_of_str (Payment.property_id (Payment.validate settled_body)) = Some 3%N
  ∧ flat ∈ properties (db sample_world)
  ∧ ∃ new : stored,
      create_payment (Payment.validate settled_body) sample_world
      = (Return (id_response "000000000000000000000008"),
         mkWorld (mkDatabase [ann; bob] [flat] [question; answer; note]
                    [deposit; new] 9%N)
           1700000000 [FindOne user; FindOne property; InsertOne payment])
      ∧ fields new !! "status" = Some (VStr "SUCCESS")
      ∧ fields new !! "status" ≠ Some (VStr "INITIATED").
Proof.
  split; [reflexivity|].
  split; [apply list_elem_of_further, list_elem_of_here|].
  split; [reflexivity|].
  split; [apply list_elem_of_here|].
  exists (mkStored 8%N (Payment.model_dump (Payment.validate settled_body))).
  split; [reflexivity|]. split; [reflexivity|].
  intros H. vm_compute in H. discriminate H.
Qed.



(** C4, witness: Ann logs in with her password and gets her id and no
    password_hash. *)
Lemma login_ann_witness :
  ∃ resp : doc,
    fst (login sample_digest (LoginRequest.mk "ann@example.org" "secret") sample_world)
    = Return resp
    ∧ resp !! "id" = Some (VStr id_ann)
    ∧ resp !! "full_name" = Some (VStr "Ann")
    ∧ resp !! "password_hash" = None.
Proof.
  destruct (login_unauthorized_or_public_fields sample_digest
              (LoginRequest.mk "ann@example.org" "secret") sample_world)
    as (_ & _ & H).
  destruct (H [] [bob] ann eq_refl (Forall_nil_2 _) eq_refl eq_refl) as [_ Hok].
  destruct (Hok eq_refl (VStr "Ann") (VStr "111") (VStr "OWNER") eq_refl eq_refl eq_refl)
    as (resp & Hr & Hid & Hname & _ & _ & _ & Hph & _).
  exists resp. split; [exact Hr|]. split; [exact Hid|]. split; [exact Hname|exact Hph].
Defined.


(** C7, witness: marking the deposit SUCCESS without a provider_payment_id
    keeps the stored one. *)
Lemma update_payment_status_witness :
  ∃ s' : stored,
    payments (db (snd (update_payment_status id_deposit
                         (PaymentStatusUpdate.mk PaymentStatus.SUCCESS None)
                         sample_world))) = [s']
    ∧ fields s' !! "status" = Some (VStr "SUCCESS")
    ∧ fields s' !! "provider_payment_id" = Some (VStr "pay_1")
    ∧ fields s' !! "amount" = Some (VFloat 5000%float).
Proof.
  destruct (update_payment_status_frame id_deposit
              (PaymentStatusUpdate.mk PaymentStatus.SUCCESS None) 7%N sample_world
              eq_refl) as [Hfound _].
  destruct (Hfound [] [] deposit eq_refl (Forall_nil_2 _) eq_refl)
    as (s' & _ & Hpay & _ & Hst & _ & _ & Hsame & Hkeep & _).
  exists s'. split; [exact Hpay|]. split; [exact Hst|].
  split; [rewrite Hsame; [reflexivity | by left]|].
  rewrite Hkeep; [reflexivity | discriminate | discriminate | discriminate].
Defined.


(** C9, witness: a malformed path identifier, and a malformed receiver_id
    after a sender that is stored. *)
Lemma malformed_id_witness :
  get_property "not-an-id" sample_world = (Raise invalid_id, sample_world)
  ∧ fst (create_message
           (Message.mk id_bob "not-an-id" None "Hi" "?" false) sample_world)
    = Raise invalid_id.
Proof.
  destruct (malformed_id_rejected "not-an-id" sample_world eq_refl)
    as (Hget & _ & _ & _ & _ & _ & _ & _ & _ & Hrecv & _).
  split; [exact Hget|].
  destruct (Hrecv (Message.mk id_bob "not-an-id" None "Hi" "?" false) eq_refl)
    as [_ Hbad].
  apply (Hbad 2%N eq_refl).
  exists bob. split; [|reflexivity]. apply list_elem_of_further, list_elem_of_here.
Defined.

(** C9, counterexample: with a well-formed sender_id that no user has, a
    malformed receiver_id is answered with 404 after a lookup in the store;
    an empty property_id, which is no identifier, is not checked at all: the
    message is stored; and a path identifier of twenty-four characters that
    spell eight bytes, which is no encoding of twelve bytes, is taken by
    [ObjectId], looked up and answered with 404. *)
Lemma create_message_counterexample :
  ObjectId_of_str (Message.receiver_id stray_message) = None
  ∧ create_message stray_message sample_world
    = (Raise (HTTPException 404 "User not found: 00000000000000000000000f"),
       mkWorld sample_db 1700000000 [FindOne user])
  ∧ ObjectId_of_str "" = None
  ∧ (∃ new : stored,
       fst (create_message blank_property_message sample_world)
       = Return (id_response "000000000000000000000008")
       ∧ messages (db (snd (create_message blank_property_message sample_world)))
         = [question; answer; note; new]
       ∧ fields new !! "property_id" = Some (VStr ""))
  ∧ canonical_id spaced_id = false
  ∧ fromhex spaced_id = Some [0; 0; 0; 0; 0; 0; 0; 0]%N
  ∧ get_property spaced_id sample_world
    = (Raise (HTTPException 404 "Property not found"),
       mkWorld sample_db 1700000000 [FindOne property]).
Proof.
  split; [reflexivity|]. split; [reflexivity|]. split; [reflexivity|].
  split.
  - exists (mkStored 8%N (Message.model_dump blank_property_message)).
    split; [reflexivity|]. split; reflexivity.
  - split; [reflexivity|]. split; reflexivity.
Qed.


(** C10, counterexample: a user_id of twenty-four spaces is no encoding of
    an identifier, yet [ObjectId] takes it (it spells no byte at all), the
    messages are queried and the answer is an empty list. *)
Lemma list_messages_blank_counterexample :
  canonical_id blank_id = false
  ∧ fromhex blank_id = Some []
  ∧ list_messages blank_id sample_world
    = (Return [], mkWorld sample_db 1700000000 [Find message]).
Proof.
  split; [reflexivity|]. split; reflexivity.
Qed.

(** C10, witness: a user_id that [ObjectId] rejects. *)
Lemma list_messages_malformed_witness :
  list_messages "not-an-id" sample_world
  = (Raise (HTTPException 400 "Invalid ID format"), sample_world).
Proof.
  exact (proj1 (list_messages_parses_user_id "not-an-id" sample_world) eq_refl).
Defined.

(** * Further properties of the handlers *)

(** ** Identifiers and their strings *)

Lemma hex_value_hex_digit (d : N) : (d < 16)%N → hex_value (hex_digit d) = Some d.
Proof.
  intros H.
  assert (d = 0 ∨ d = 1 ∨ d = 2 ∨ d = 3 ∨ d = 4 ∨ d = 5 ∨ d = 6 ∨ d = 7 ∨ d = 8
          ∨ d = 9 ∨ d = 10 ∨ d = 11 ∨ d = 12 ∨ d = 13 ∨ d = 14 ∨ d = 15)%N
    as Hd by lia.
  repeat (destruct Hd as [->|Hd]; [reflexivity|]). by subst.
Qed.

Lemma length_hex_digits (n : nat) (o : N) (acc : string) :
  String.length (hex_digits n o acc) = (n + String.length acc)%nat.
Proof.
  revert o acc. induction n as [|n IH]; intros o acc; simpl; [done|].
  rewrite IH. simpl. lia.
Qed.

Lemma is_space_hex_digit (d : N) : (d < 16)%N → is_space (hex_digit d) = false.
Proof.
  intros H.
  assert (d = 0 ∨ d = 1 ∨ d = 2 ∨ d = 3 ∨ d = 4 ∨ d = 5 ∨ d = 6 ∨ d = 7 ∨ d = 8
          ∨ d = 9 ∨ d = 10 ∨ d = 11 ∨ d = 12 ∨ d = 13 ∨ d = 14 ∨ d = 15)%N
    as Hd by lia.
  repeat (destruct Hd as [->|Hd]; [reflexivity|]). by subst.
Qed.

Lemma length_be_bytes (k : nat) (o : N) (acc : list N) :
  List.length (be_bytes k o acc) = (k + List.length acc)%nat.
Proof.
  revert o acc. induction k as [|k IH]; intros o acc; simpl; [done|].
  rewrite IH. simpl. lia.
Qed.

Lemma fromhex_pair (d1 d2 : N) (rest : string) :
  (d1 < 16)%N → (d2 < 16)%N →
  fromhex (String (hex_digit d1) (String (hex_digit d2) rest))
  = cons (16 * d1 + d2)%N <$> fromhex rest.
Proof.
  intros H1 H2. cbn [fromhex].
  by rewrite is_space_hex_digit, !hex_value_hex_digit by done.
Qed.

Lemma fromhex_hex_digits (k : nat) (o : N) (acc : string) :
  fromhex (hex_digits (k + k) o acc) = be_bytes k o <$> fromhex acc.
Proof.
  revert o acc. induction k as [|k IH]; intros o acc.
  - simpl. by destruct (fromhex acc).
  - replace (S k + S k)%nat with (S (S (k + k))) by lia.
    cbn [hex_digits be_bytes]. rewrite IH.
    rewrite fromhex_pair by (apply N.mod_lt; lia).
    rewrite N.Div0.div_div.
    replace (16 * ((o / 16) mod 16) + o mod 16)%N with (o mod 256)%N.
    + by destruct (fromhex acc).
    + change 256%N with (16 * 16)%N. rewrite N.Div0.mod_mul_r. lia.
Qed.

Lemma fold_be_bytes (k : nat) (o : N) (acc : list N) (a : N) :
  fold_left (λ acc x, 256 * acc + x)%N (be_bytes k o acc) a
  = fold_left (λ acc x, 256 * acc + x)%N acc
      (a * 256 ^ N.of_nat k + o mod 256 ^ N.of_nat k)%N.
Proof.
  revert o acc a. induction k as [|k IH]; intros o acc a.
  - simpl. rewrite N.mod_1_r. f_equal. lia.
  - cbn [be_bytes]. rewrite IH. cbn [fold_left]. f_equal.
    rewrite Nat2N.inj_succ, N.pow_succ_r'.
    rewrite (N.Div0.mod_mul_r o 256 (256 ^ N.of_nat k)). lia.
Qed.

Lemma ObjectId_round_trip (o : ObjectId) :
  (o < 2 ^ 96)%N → ObjectId_of_str (str_of_ObjectId o) = Some o.
Proof.
  intros Ho. unfold ObjectId_of_str, str_of_ObjectId.
  rewrite length_hex_digits. cbn [String.length Nat.add Nat.eqb].
  change 24%nat with (12 + 12)%nat. rewrite fromhex_hex_digits.
  cbn [fromhex fmap option_fmap option_map]. f_equal.
  unfold ObjectId_of_bytes. rewrite length_be_bytes.
  cbn [List.length Nat.add Nat.eqb]. unfold bytes_value.
  rewrite fold_be_bytes. cbn [fold_left].
  change (256 ^ N.of_nat 12)%N with (2 ^ 96)%N.
  rewrite N.mod_small by done. lia.
Qed.

(** Every canonical encoding, as the spec has it, is taken by [ObjectId] as
    twelve bytes; the strings of the counterexamples show that [ObjectId]
    takes more. *)
Lemma hex_value_not_space (c : ascii) : is_Some (hex_value c) → is_space c = false.
Proof.
  destruct c as [[] [] [] [] [] [] [] []]; try reflexivity;
    intros [x H]; vm_compute in H; discriminate H.
Qed.

Lemma fromhex_digits (n : nat) (s : string) :
  String.length s = (n + n)%nat →
  forallb (λ c, bool_decide (is_Some (hex_value c))) (list_ascii_of_string s) = true →
  ∃ b, fromhex s = Some b ∧ List.length b = n.
Proof.
  revert s. induction n as [|n IH]; intros s Hlen Hhex.
  - destruct s; [|discriminate]. by exists [].
  - destruct s as [|c [|d rest]]; try (simpl in Hlen; lia).
    simpl in Hlen. cbn [list_ascii_of_string forallb] in Hhex.
    apply andb_true_iff in Hhex as [Hc Hhex].
    apply andb_true_iff in Hhex as [Hd Hhex].
    apply bool_decide_eq_true in Hc, Hd.
    destruct (IH rest) as (b & Hb & Hn); [lia|done|].
    cbn [fromhex]. rewrite (hex_value_not_space c Hc).
    destruct Hc as [x ->], Hd as [y ->]. rewrite Hb. simpl. eexists. split; [done|].
    simpl. by rewrite Hn.
Qed.

Lemma canonical_id_taken (s : string) :
  canonical_id s = true →
  ∃ b, fromhex s = Some b ∧ List.length b = 12%nat
       ∧ ObjectId_of_str s = Some (bytes_value b).
Proof.
  unfold canonical_id. intros H. apply andb_true_iff in H as [Hlen Hhex].
  apply Nat.eqb_eq in Hlen.
  destruct (fromhex_digits 12 s Hlen Hhex) as (b & Hb & Hn).
  exists b. split; [done|]. split; [done|].
  unfold ObjectId_of_str. rewrite Hlen, Hb. simpl.
  unfold ObjectId_of_bytes. by rewrite Hn.
Qed.

(** ** One property: read, delete, verify *)

Lemma find_by_id_found (o : ObjectId) (l1 l2 : list stored) (s : stored) :
  Forall (λ x, oid x ≠ o) l1 → oid s = o →
  List.find (selects (by_id o)) (l1 ++ s :: l2) = Some s.
Proof.
  intros Hl1 Hs. apply find_first.
  - eapply Forall_impl; [exact Hl1|]. intros x Hx. simpl in Hx.
    rewrite selects_by_id. by apply N.eqb_neq.
  - rewrite selects_by_id. by apply N.eqb_eq.
Qed.

Lemma delete_first_found p (l1 l2 : list stored) (u : stored) :
  Forall (λ x, p x = false) l1 → p u = true →
  delete_first p (l1 ++ u :: l2) = (l1 ++ l2, 1).
Proof.
  intros Hl1 Hu. induction Hl1 as [|y l1 Hy _ IH]; simpl.
  - by rewrite Hu.
  - by rewrite Hy, IH.
Qed.

Lemma delete_by_id_found (o : ObjectId) (l1 l2 : list stored) (s : stored) :
  Forall (λ x, oid x ≠ o) l1 → oid s = o →
  delete_first (selects (by_id o)) (l1 ++ s :: l2) = (l1 ++ l2, 1).
Proof.
  intros Hl1 Hs. apply delete_first_found.
  - eapply Forall_impl; [exact Hl1|]. intros x Hx. simpl in Hx.
    rewrite selects_by_id. by apply N.eqb_neq.
  - rewrite selects_by_id. by apply N.eqb_eq.
Qed.

Lemma delete_by_id_absent (o : ObjectId) (l : list stored) :
  (∀ x, x ∈ l → oid x ≠ o) → delete_first (selects (by_id o)) l = (l, 0).
Proof.
  intros H. apply delete_first_absent. intros x Hx.
  rewrite selects_by_id. apply N.eqb_neq. by apply H.
Qed.

Lemma public_lookup_id (s : stored) :
  public s !! "id" = Some (VStr (str_of_ObjectId (oid s))).
Proof. unfold public. by rewrite lookup_insert_eq. Qed.

Lemma public_lookup__id (s : stored) : public s !! "_id" = None.
Proof.
  unfold public. rewrite lookup_insert_ne by done. by rewrite lookup_delete_eq.
Qed.

(** X1. [get_property] never changes the store. For an identifier no
    property has it answers 404; otherwise it answers with the first property
    that has it, under the key id as a string, without the key _id, every
    other field as stored. *)
Theorem get_property_found_or_404 (property_id : string) (o : ObjectId) (w : World) :
  let r := get_property property_id w in
  ObjectId_of_str property_id = Some o →
  db (snd r) = db w
  ∧ ((∀ x, x ∈ properties (db w) → oid x ≠ o) →
     fst r = Raise (HTTPException 404 "Property not found"))
  ∧ (∀ (l1 l2 : list stored) (s : stored),
       properties (db w) = l1 ++ s :: l2 →
       Forall (λ x, oid x ≠ o) l1 →
       oid s = o →
       ∃ d : doc,
         fst r = Return d
         ∧ d !! "id" = Some (VStr (str_of_ObjectId o))
         ∧ d !! "_id" = None
         ∧ ∀ k, k ≠ "id" → k ≠ "_id" → d !! k = fields s !! k).
Proof.
  intros r Hid. subst r. unfold get_property, find_one.
  split; [|split].
  - run. rewrite Hid. simpl.
    destruct (List.find _ _); destruct w as [[]]; reflexivity.
  - intros Habs. run. rewrite Hid. simpl.
    by rewrite find_by_id_absent.
  - intros l1 l2 s Hprops Hl1 Hs. run. rewrite Hid. simpl.
    rewrite Hprops, find_by_id_found by done. simpl.
    exists (public s). split; [reflexivity|].
    split; [by rewrite public_lookup_id, Hs|].
    split; [apply public_lookup__id|].
    intros k H1 H2. by apply public_lookup.
Qed.

(** X2. [delete_property] removes the first property that has the
    identifier and nothing else, and answers 404, leaving the store as it is,
    when no property has it. *)
Theorem delete_property_removes_one (property_id : string) (o : ObjectId) (w : World) :
  let r := delete_property property_id w in
  ObjectId_of_str property_id = Some o →
  (∀ (l1 l2 : list stored) (s : stored),
     properties (db w) = l1 ++ s :: l2 →
     Forall (λ x, oid x ≠ o) l1 →
     oid s = o →
     fst r = Return {["deleted" := VBool true]}
     ∧ properties (db (snd r)) = l1 ++ l2
     ∧ users (db (snd r)) = users (db w)
     ∧ messages (db (snd r)) = messages (db w)
     ∧ payments (db (snd r)) = payments (db w)
     ∧ next_oid (db (snd r)) = next_oid (db w))
  ∧ ((∀ x, x ∈ properties (db w) → oid x ≠ o) →
     fst r = Raise (HTTPException 404 "Property not found")
     ∧ db (snd r) = db w).
Proof.
  intros r Hid. subst r. unfold delete_property, delete_one. split.
  - intros l1 l2 s Hprops Hl1 Hs. run. rewrite Hid. simpl.
    rewrite Hprops, delete_by_id_found by done. simpl.
    repeat split; reflexivity.
  - intros Habs. run. rewrite Hid. simpl.
    rewrite delete_by_id_absent by done. simpl.
    split; [reflexivity|]. destruct w as [[]]. reflexivity.
Qed.

(** X3. [verify_property] sets verified and updated_at in the first
    property that has the identifier, leaves its other fields and all other
    documents as they were and answers with the flag; it answers 404,
    leaving the store as it is, when no property has the identifier. *)
Theorem verify_property_frame (property_id : string) (body : VerifyRequest.t)
    (o : ObjectId) (w : World) :
  let r := verify_property property_id body w in
  ObjectId_of_str property_id = Some o →
  (∀ (l1 l2 : list stored) (s : stored),
     properties (db w) = l1 ++ s :: l2 →
     Forall (λ x, oid x ≠ o) l1 →
     oid s = o →
     ∃ s' : stored,
       fst r = Return {["verified" := VBool (VerifyRequest.verified body)]}
       ∧ properties (db (snd r)) = l1 ++ s' :: l2
       ∧ oid s' = o
       ∧ fields s' !! "verified" = Some (VBool (VerifyRequest.verified body))
       ∧ fields s' !! "updated_at" = Some (VDate (clock w))
       ∧ (∀ k, k ≠ "verified" → k ≠ "updated_at" → fields s' !! k = fields s !! k)
       ∧ users (db (snd r)) = users (db w)
       ∧ messages (db (snd r)) = messages (db w)
       ∧ payments (db (snd r)) = payments (db w))
  ∧ ((∀ x, x ∈ properties (db w) → oid x ≠ o) →
     fst r = Raise (HTTPException 404 "Property not found")
     ∧ db (snd r) = db w).
Proof.
  intros r Hid. subst r. unfold verify_property. split.
  - intros l1 l2 s Hprops Hl1 Hs. run. rewrite Hid. simpl.
    rewrite update_one_encodable by encodes. unfold apply_update. run.
    rewrite Hprops. rewrite update_by_id_found by done. simpl.
    eexists. split; [reflexivity|]. split; [reflexivity|]. split; [exact Hs|].
    split; [by rewrite set_fields_lookup, lookup_insert_eq|].
    split; [by rewrite set_fields_lookup, lookup_insert_ne, lookup_singleton_eq|].
    split; [|repeat split; reflexivity].
    intros k H1 H2. rewrite set_fields_lookup.
    by rewrite lookup_insert_ne, lookup_singleton_ne.
  - intros Habs. run. rewrite Hid. simpl.
    rewrite update_one_encodable by encodes. unfold apply_update. run.
    rewrite update_by_id_absent by done. simpl.
    split; [reflexivity|]. destruct w as [[]]. reflexivity.
Qed.

(** X4. [admin_update_user_status] sets status and updated_at in the first
    user that has the identifier, leaves the other fields (the password_hash
    among them) and all other documents as they were; it answers 404,
    leaving the store as it is, when no user has the identifier. *)
Theorem admin_update_user_status_frame (user_id : string) (body : UserStatusUpdate.t)
    (o : ObjectId) (w : World) :
  let r := admin_update_user_status user_id body w in
  ObjectId_of_str user_id = Some o →
  (∀ (l1 l2 : list stored) (s : stored),
     users (db w) = l1 ++ s :: l2 →
     Forall (λ x, oid x ≠ o) l1 →
     oid s = o →
     ∃ s' : stored,
       fst r = Return updated_true
       ∧ users (db (snd r)) = l1 ++ s' :: l2
       ∧ oid s' = o
       ∧ fields s' !! "status"
         = Some (VStr (UserStatus.str (UserStatusUpdate.status body)))
       ∧ fields s' !! "updated_at" = Some (VDate (clock w))
       ∧ (∀ k, k ≠ "status" → k ≠ "updated_at" → fields s' !! k = fields s !! k)
       ∧ properties (db (snd r)) = properties (db w)
       ∧ messages (db (snd r)) = messages (db w)
       ∧ payments (db (snd r)) = payments (db w))
  ∧ ((∀ x, x ∈ users (db w) → oid x ≠ o) →
     fst r = Raise (HTTPException 404 "User not found")
     ∧ db (snd r) = db w).
Proof.
  intros r Hid. subst r. unfold admin_update_user_status. split.
  - intros l1 l2 s Husers Hl1 Hs. run. rewrite Hid. simpl.
    rewrite update_one_encodable by encodes. unfold apply_update. run.
    rewrite Husers. rewrite update_by_id_found by done. simpl.
    eexists. split; [reflexivity|]. split; [reflexivity|]. split; [exact Hs|].
    split; [by rewrite set_fields_lookup, lookup_insert_eq|].
    split; [by rewrite set_fields_lookup, lookup_insert_ne, lookup_singleton_eq|].
    split; [|repeat split; reflexivity].
    intros k H1 H2. rewrite set_fields_lookup.
    by rewrite lookup_insert_ne, lookup_singleton_ne.
  - intros Habs. run. rewrite Hid. simpl.
    rewrite update_one_encodable by encodes. unfold apply_update. run.
    rewrite update_by_id_absent by done. simpl.
    split; [reflexivity|]. destruct w as [[]]. reflexivity.
Qed.

(** ** Creating a property and reading it back *)

Lemma property_dump_no_id (req : Property.t) : Property.model_dump req !! "_id" = None.
Proof.
  unfold Property.model_dump.
  repeat (rewrite lookup_insert_ne by done). apply lookup_empty.
Qed.

Lemma public_new (o : ObjectId) (data : doc) :
  data !! "_id" = None →
  public (mkStored o data) = <["id" := VStr (str_of_ObjectId o)]> data.
Proof.
  intros H. unfold public, document. simpl.
  rewrite delete_insert_eq. by rewrite delete_id.
Qed.

Lemma get_property_run (property_id : string) (o : ObjectId) (w : World) :
  ObjectId_of_str property_id = Some o →
  get_property property_id w
  = (match List.find (selects (by_id o)) (properties (db w)) with
     | Some s => Return (public s)
     | None => Raise (HTTPException 404 "Property not found")
     end,
     mkWorld (db w) (clock w) (log w ++ [FindOne property])).
Proof.
  intros Hid. unfold get_property, find_one. run. rewrite Hid. simpl.
  by destruct (List.find _ _).
Qed.

(** X5. [create_property] answers 404 and stores nothing when the owner_id,
    a well-formed identifier, is the identifier of no user; when a user has
    it, the request's fields are appended as one property under the next
    identifier of the store, which is returned. *)
Theorem create_property_owner_checked (req : Property.t) (o : ObjectId) (w : World) :
  let r := create_property req w in
  ObjectId_of_str (Property.owner_id req) = Some o →
  ((∀ u, u ∈ users (db w) → oid u ≠ o) →
   fst r = Raise (HTTPException 404 "Owner not found")
   ∧ db (snd r) = db w)
  ∧ ((∃ u, u ∈ users (db w) ∧ oid u = o) →
     fst r = Return (id_response (str_of_ObjectId (next_oid (db w))))
     ∧ properties (db (snd r))
       = properties (db w) ++ [mkStored (next_oid (db w)) (Property.model_dump req)]
     ∧ next_oid (db (snd r)) = N.succ (next_oid (db w))
     ∧ users (db (snd r)) = users (db w)
     ∧ messages (db (snd r)) = messages (db w)
     ∧ payments (db (snd r)) = payments (db w)).
Proof.
  intros r Hid. subst r. unfold create_property, find_one, create_document. split.
  - intros Habs. run. rewrite Hid. simpl.
    rewrite find_by_id_absent by done. simpl.
    split; [reflexivity|]. destruct w as [[]]. reflexivity.
  - intros Hex. apply find_by_id_present in Hex as [u Hu].
    run. rewrite Hid. simpl. rewrite Hu. simpl.
    repeat split; reflexivity.
Qed.

(** X6. On a store whose property identifiers are all below the next one
    to hand out, which is below 2^96, a property that [create_property]
    accepted is read back by [get_property] under the identifier returned:
    the request's fields and the key id. *)
Theorem create_then_get_property (req : Property.t) (o : ObjectId) (w : World) :
  ObjectId_of_str (Property.owner_id req) = Some o →
  (∃ u, u ∈ users (db w) ∧ oid u = o) →
  (∀ x, x ∈ properties (db w) → (oid x < next_oid (db w))%N) →
  (next_oid (db w) < 2 ^ 96)%N →
  ∃ new_id : string,
    fst (create_property req w) = Return (id_response new_id)
    ∧ fst (get_property new_id (snd (create_property req w)))
      = Return (<["id" := VStr new_id]> (Property.model_dump req)).
Proof.
  intros Hid Hex Hbelow Hbound.
  exists (str_of_ObjectId (next_oid (db w))).
  apply find_by_id_present in Hex as [u Hu].
  assert (Hrun : create_property req w
                 = (Return (id_response (str_of_ObjectId (next_oid (db w)))),
                    mkWorld
                      (mkDatabase (users (db w))
                         (properties (db w)
                          ++ [mkStored (next_oid (db w)) (Property.model_dump req)])
                         (messages (db w)) (payments (db w))
                         (N.succ (next_oid (db w))))
                      (clock w) ((log w ++ [FindOne user]) ++ [InsertOne property]))).
  { unfold create_property, find_one, create_document.
    run. rewrite Hid. simpl. rewrite Hu. reflexivity. }
  rewrite Hrun. split; [reflexivity|].
  rewrite (get_property_run _ (next_oid (db w))) by by apply ObjectId_round_trip.
  cbn [fst snd db properties].
  rewrite find_by_id_found; [| |reflexivity].
  - by rewrite public_new by apply property_dump_no_id.
  - apply Forall_forall. intros x Hx. apply Hbelow in Hx. lia.
Qed.

(** ** Registering, logging in, suspending *)

Section Accounts.

Variable sha256_hexdigest : string → string.

Lemma login_without_active_user (req : LoginRequest.t) (w : World) :
  (∀ u, u ∈ users (db w) → active_with_email (LoginRequest.email req) u = false) →
  fst (login sha256_hexdigest req w) = Raise (HTTPException 401 "Invalid credentials").
Proof.
  intros Hnone. unfold login, find_one. run.
  rewrite find_absent; [reflexivity|].
  intros x Hx. rewrite selects_login. by apply Hnone.
Qed.

Lemma find_none_all (p : stored → bool) (l : list stored) :
  List.find p l = None → Forall (λ x, p x = false) l.
Proof.
  intros H. apply Forall_forall. intros x Hx.
  apply (find_none _ _ H). by apply list_elem_of_In.
Qed.

Lemma login_found (req : LoginRequest.t) (w : World) (s : stored)
    (full_name email mobile role : value) :
  List.find (selects (<["email" := QField (CEq (VStr (LoginRequest.email req)))]>
                        {["status" := QField (CEq (VStr "ACTIVE"))]}))
    (users (db w)) = Some s →
  fields s !! "password_hash"
  = Some (VStr (sha256_hexdigest (LoginRequest.password req))) →
  fields s !! "full_name" = Some full_name →
  fields s !! "email" = Some email →
  fields s !! "mobile" = Some mobile →
  fields s !! "role" = Some role →
  fst (login sha256_hexdigest req w)
  = Return (<["id" := VStr (str_of_ObjectId (oid s))]>
           (<["full_name" := full_name]>
           (<["email" := email]>
           (<["mobile" := mobile]>
           (<["role" := role]> ∅))))).
Proof.
  intros Hfind Hp Hf He Hm Hr. unfold login, find_one. run.
  rewrite Hfind. clear Hfind. simpl.
  rewrite !document_lookup_ne by done.
  rewrite Hp, Hf, He, Hm, Hr. simpl. by rewrite String.eqb_refl.
Qed.

Lemma login_wrong_password (req : LoginRequest.t) (w : World) (s : stored) (h : string) :
  List.find (selects (<["email" := QField (CEq (VStr (LoginRequest.email req)))]>
                        {["status" := QField (CEq (VStr "ACTIVE"))]}))
    (users (db w)) = Some s →
  fields s !! "password_hash" = Some (VStr h) →
  h ≠ sha256_hexdigest (LoginRequest.password req) →
  fst (login sha256_hexdigest req w) = Raise (HTTPException 401 "Invalid credentials").
Proof.
  intros Hfind Hp Hne. unfold login, find_one. run.
  rewrite Hfind. clear Hfind. simpl.
  rewrite !document_lookup_ne by done. rewrite Hp. simpl.
  by destruct (String.eqb_spec h (sha256_hexdigest (LoginRequest.password req))).
Qed.

(** X7. After [register] has accepted a request, [login] with the same
    email and password answers with the identifier [register] returned and
    the registered full_name, email, mobile and role; with a password whose
    digest is another one it answers 401. *)
Theorem register_then_login (req : RegisterRequest.t) (w : World) (resp : doc) :
  let w' := snd (register sha256_hexdigest req w) in
  let email := RegisterRequest.email req in
  fst (register sha256_hexdigest req w) = Return resp →
  (∃ answer : doc,
     fst (login sha256_hexdigest
            (LoginRequest.mk email (RegisterRequest.password req)) w')
     = Return answer
     ∧ answer !! "id" = resp !! "id"
     ∧ answer !! "id" = Some (VStr (str_of_ObjectId (next_oid (db w))))
     ∧ answer !! "full_name" = Some (VStr (RegisterRequest.full_name req))
     ∧ answer !! "email" = Some (VStr email)
     ∧ answer !! "mobile" = Some (VStr (RegisterRequest.mobile req))
     ∧ answer !! "role" = Some (VStr (Role.str (RegisterRequest.role req))))
  ∧ (∀ other : string,
       sha256_hexdigest other ≠ sha256_hexdigest (RegisterRequest.password req) →
       fst (login sha256_hexdigest (LoginRequest.mk email other) w')
       = Raise (HTTPException 401 "Invalid credentials")).
Proof.
  intros w' email Hreg. subst w'.
  set (usr := User.new (RegisterRequest.full_name req) email
                (RegisterRequest.mobile req)
                (Some (sha256_hexdigest (RegisterRequest.password req)))
                (RegisterRequest.role req)).
  set (new := mkStored (next_oid (db w)) (User.model_dump usr)).
  destruct (user_dump_fields usr) as (Hn & He & Hm & Hp & Hr & Hs & _).
  assert (Hrun : List.find (selects
                    {["$or" := QOr [ {["email" := CEq (VStr email)]};
                                     {["mobile" := CEq (VStr (RegisterRequest.mobile req))]} ]]})
                   (users (db w)) = None
                 ∧ resp = id_response (str_of_ObjectId (next_oid (db w)))
                 ∧ users (db (snd (register sha256_hexdigest req w)))
                   = users (db w) ++ [new]).
  { revert Hreg. unfold register, find_one, create_document. run. fold email.
    destruct (List.find _ (users (db w))) as [u|]; simpl; [discriminate|].
    intros Hresp. injection Hresp as <-. done. }
  clear Hreg. destruct Hrun as (Hfind & -> & Husers).
  apply find_none_all in Hfind.
  assert (Hfirst : ∀ pw,
            List.find (selects
                (<["email" := QField (CEq (VStr (LoginRequest.email
                                                   (LoginRequest.mk email pw))))]>
                   {["status" := QField (CEq (VStr "ACTIVE"))]}))
              (users (db (snd (register sha256_hexdigest req w)))) = Some new).
  { intros pw. rewrite Husers. apply find_first.
    - eapply Forall_impl; [exact Hfind|]. intros x Hx. simpl in Hx.
      rewrite selects_register in Hx. rewrite selects_login.
      unfold taken in Hx. unfold active_with_email.
      apply orb_false_iff in Hx as [Hx _]. simpl. by rewrite Hx.
    - rewrite selects_login. unfold active_with_email, new.
      cbn [fields LoginRequest.email]. rewrite He, Hs. simpl.
      by rewrite String.eqb_refl. }
  clear Hfind Husers. split.
  - eexists. split.
    + apply (login_found _ _ new); [apply Hfirst| exact Hp |exact Hn|exact He|exact Hm|exact Hr].
    + unfold id_response. rewrite lookup_insert_eq, lookup_singleton_eq.
      split; [reflexivity|]. split; [reflexivity|].
      repeat (rewrite ?lookup_insert_eq; rewrite ?lookup_insert_ne by done).
      repeat split; reflexivity.
  - intros other Hother.
    apply (login_wrong_password _ _ new _ (Hfirst other) Hp).
    simpl. congruence.
Qed.

(** X8. Once [admin_update_user_status] has set a user to SUSPENDED, and no
    other user has that user's email, [login] with this email answers 401
    whatever the password. *)
Theorem suspended_user_cannot_login (user_id : string) (o : ObjectId)
    (req : LoginRequest.t) (l1 l2 : list stored) (s : stored) (w : World) :
  let w' := snd (admin_update_user_status user_id
                   (UserStatusUpdate.mk UserStatus.SUSPENDED) w) in
  ObjectId_of_str user_id = Some o →
  users (db w) = l1 ++ s :: l2 →
  Forall (λ x, oid x ≠ o) l1 →
  oid s = o →
  (∀ x, x ∈ l1 ++ l2 → fields x !! "email" ≠ Some (VStr (LoginRequest.email req))) →
  fst (login sha256_hexdigest req w') = Raise (HTTPException 401 "Invalid credentials").
Proof.
  intros w' Hid Husers Hl1 Hs Hothers. subst w'.
  apply login_without_active_user.
  unfold admin_update_user_status. run. rewrite Hid. simpl.
  rewrite update_one_encodable by encodes. unfold apply_update. run.
  rewrite Husers, update_by_id_found by done. simpl.
  intros u Hu. apply not_true_iff_false. rewrite active_with_email_spec.
  intros [Hemail Hstatus].
  apply elem_of_app in Hu as [Hu|Hu]; [|apply elem_of_cons in Hu as [->|Hu]].
  - apply (Hothers u); [|done]. apply elem_of_app. by left.
  - rewrite set_fields_lookup, lookup_insert_eq in Hstatus. discriminate.
  - apply (Hothers u); [|done]. apply elem_of_app. by right.
Qed.

End Accounts.

(** ** A request that fails *)

Lemma update_first_unmatched p g (l l' : list stored) :
  update_first p g l = (l', 0) → l' = l.
Proof.
  revert l'. induction l as [|s l IH]; intros l'; simpl.
  - by intros [= <-].
  - destruct (p s); [discriminate|].
    destruct (update_first p g l) as [rest n]. intros [= <- ->].
    by rewrite (IH rest).
Qed.

Lemma delete_first_unmatched p (l l' : list stored) :
  delete_first p l = (l', 0) → l' = l.
Proof.
  revert l'. induction l as [|s l IH]; intros l'; simpl.
  - by intros [= <-].
  - destruct (p s); [discriminate|].
    destruct (delete_first p l) as [rest n]. intros [= <- ->].
    by rewrite (IH rest).
Qed.

Lemma update_one_unmatched (c : collection) (f : filter_spec) (update : doc)
    (w w' : World) :
  update_one c f update w = (Return 0, w') → db w' = db w.
Proof.
  unfold update_one. destruct (doc_encodable update); [|discriminate].
  unfold apply_update. run.
  destruct (update_first _ _ _) as [l n] eqn:E. simpl.
  intros [= -> <-]. simpl. apply update_first_unmatched in E. subst l.
  apply set_collection_same.
Qed.

Lemma delete_one_unmatched (c : collection) (f : filter_spec) (w w' : World) :
  delete_one c f w = (Return 0, w') → db w' = db w.
Proof.
  unfold delete_one. run.
  destruct (delete_first _ _) as [l n] eqn:E. simpl.
  intros [= -> <-]. simpl. apply delete_first_unmatched in E. subst l.
  apply set_collection_same.
Qed.

Lemma update_one_outcome (c : collection) (f : filter_spec) (update : doc) (w : World) :
  (∃ n w', update_one c f update w = (Return n, w'))
  ∨ (∃ e, update_one c f update w = (Raise e, w)).
Proof.
  unfold update_one. destruct (doc_encodable update).
  - left. unfold apply_update. run.
    destruct (update_first _ _ _) as [l n]. by eexists _, _.
  - right. by eexists.
Qed.

Lemma delete_one_returns (c : collection) (f : filter_spec) (w : World) :
  ∃ n w', delete_one c f w = (Return n, w').
Proof.
  unfold delete_one. run. destruct (delete_first _ _) as [l n]. by eexists _, _.
Qed.

Ltac same_db :=
  match goal with
  | w : World |- _ => destruct w as [[]]; reflexivity
  end.

Ltac by_cases :=
  repeat match goal with
         | |- context [match ObjectId_of_str ?s with _ => _ end] =>
             destruct (ObjectId_of_str s); simpl
         | |- context [match List.find ?p ?l with _ => _ end] =>
             destruct (List.find p l); simpl
         | |- context [match truthy ?o with _ => _ end] =>
             destruct (truthy o); simpl
         end.

Ltac by_update :=
  match goal with
  | |- context [update_one ?c ?f ?u ?w0] =>
      let n := fresh "n" in
      let w' := fresh "w'" in
      let e' := fresh "e'" in
      let E := fresh "E" in
      destruct (update_one_outcome c f u w0) as [(n & w' & E)|(e' & E)];
      rewrite E; simpl;
      [ destruct (Z.eqb_spec n 0) as [->|]; simpl;
        [ intros _; by apply update_one_unmatched in E
        | first [ match goal with w : World |- _ => destruct w as [[]]; reflexivity end
                | intros; match goal with H : Return _ = Raise _ |- _ => discriminate H end ] ]
      | intros _; reflexivity ]
  end.

Ltac closes :=
  first [ same_db
        | intros; match goal with H : Return _ = Raise _ |- _ => discriminate H end ].

Section Failures.

Variable sha256_hexdigest : string → string.

(** X9. No partial failure: a request that creates, updates or deletes and
    ends in an exception leaves the database as it was. *)
Theorem failed_request_changes_nothing (w : World) (e : exn) :
  (∀ req, fst (register sha256_hexdigest req w) = Raise e →
          db (snd (register sha256_hexdigest req w)) = db w)
  ∧ (∀ req, fst (create_property req w) = Raise e →
            db (snd (create_property req w)) = db w)
  ∧ (∀ id body, fst (update_property id body w) = Raise e →
                db (snd (update_property id body w)) = db w)
  ∧ (∀ id, fst (delete_property id w) = Raise e →
           db (snd (delete_property id w)) = db w)
  ∧ (∀ id body, fst (verify_property id body w) = Raise e →
                db (snd (verify_property id body w)) = db w)
  ∧ (∀ req, fst (create_message req w) = Raise e →
            db (snd (create_message req w)) = db w)
  ∧ (∀ req, fst (create_payment req w) = Raise e →
            db (snd (create_payment req w)) = db w)
  ∧ (∀ id body, fst (update_payment_status id body w) = Raise e →
                db (snd (update_payment_status id body w)) = db w)
  ∧ (∀ id body, fst (admin_update_user_status id body w) = Raise e →
                db (snd (admin_update_user_status id body w)) = db w).
Proof.
  split; [|split; [|split; [|split; [|split; [|split; [|split; [|split]]]]]]].
  - intros req. unfold register, find_one, create_document. run.
    by_cases; closes.
  - intros req. unfold create_property, find_one, create_document. run.
    by_cases; closes.
  - intros id body. unfold update_property. case_bool_decide; [intros _; reflexivity|].
    run. by_cases; [|closes]. by_update.
  - intros id. unfold delete_property. run. by_cases; [|closes].
    destruct (delete_one_returns property (by_id o) w) as (n & w' & E).
    rewrite E. simpl. destruct (Z.eqb_spec n 0) as [->|]; simpl; [|closes].
    intros _. by apply delete_one_unmatched in E.
  - intros id body. unfold verify_property. run. by_cases; [|closes]. by_update.
  - intros req. unfold create_message, find_one, create_document. run.
    by_cases; closes.
  - intros req. unfold create_payment, find_one, create_document. run.
    by_cases; closes.
  - intros id body. unfold update_payment_status. run. by_cases.
    all: try closes.
    all: by_update.
  - intros id body. unfold admin_update_user_status. run. by_cases; [|closes].
    by_update.
Qed.

(** X10. The handlers that read never change the database, whatever they
    answer. *)
Theorem reading_changes_nothing (regex_search : string → string → string → bool)
    (w : World) :
  (∀ req, db (snd (login sha256_hexdigest req w)) = db w)
  ∧ (∀ q city state property_type min_price max_price bedrooms bathrooms
       furnished parking sort skip limit,
       db (snd (list_properties regex_search q city state property_type min_price
                  max_price bedrooms bathrooms furnished parking sort skip limit w))
       = db w)
  ∧ (∀ id, db (snd (get_property id w)) = db w)
  ∧ (∀ user_id, db (snd (list_messages user_id w)) = db w)
  ∧ (∀ buyer_id, db (snd (list_payments buyer_id w)) = db w)
  ∧ (∀ limit, db (snd (admin_list_users limit w)) = db w).
Proof.
  split; [|split; [|split; [|split; [|split]]]].
  - intros req. unfold login, find_one. run.
    destruct (List.find _ _) as [s|]; [|same_db].
    simpl. destruct (negb _); [same_db|].
    repeat (rewrite document_lookup_ne by done).
    repeat (destruct (fields s !! _); simpl; [|same_db]).
    same_db.
  - intros. by rewrite list_properties_run.
  - intros id. unfold get_property, find_one. run. by_cases; same_db.
  - intros user_id. unfold list_messages, find. run. by_cases; same_db.
  - intros buyer_id. unfold list_payments, find. run. reflexivity.
  - intros limit. unfold admin_list_users, find. run. reflexivity.
Qed.

End Failures.

(** ** Listing payments and users *)

Lemma matches_empty (d : doc) : matches ∅ d = true.
Proof. unfold matches. apply bool_decide_eq_true. apply map_Forall_empty. Qed.

Lemma filter_all (p : stored → bool) (l : list stored) :
  (∀ x, p x = true) → List.filter p l = l.
Proof.
  intros H. induction l as [|x l IH]; simpl; [done|]. by rewrite H, IH.
Qed.

Lemma selects_buyer (b : string) (s : stored) :
  selects {["buyer_id" := QField (CEq (VStr b))]} s = is_str b (fields s !! "buyer_id").
Proof.
  unfold selects. rewrite matches_singleton. unfold query_holds.
  rewrite holds_eq_is_str. by rewrite document_lookup_ne.
Qed.

Lemma newest_sorted_take (n : nat) (l : list stored) :
  StronglySorted newest_first (take n (cursor_sort ("_id", -1) l)).
Proof.
  pose proof (cursor_sort_id_desc_sorted l) as Hs.
  rewrite <- (take_drop n) in Hs. by apply StronglySorted_app_1_l in Hs.
Qed.

(** X11. [list_payments] never fails and never parses buyer_id: whatever
    string it is given, it answers with at most 100 stored payments in
    descending order of [_id]; with a non-empty buyer_id these are payments
    whose buyer_id field is that very string, with none or an empty one any
    payment; where identifiers grow with insertion, they are the first 100
    of those read from the latest inserted backwards. *)
Theorem list_payments_never_validates (buyer_id : option string) (w : World) :
  ∃ docs : list stored,
    list_payments buyer_id w
    = (Return (map public docs), mkWorld (db w) (clock w) (log w ++ [Find payment]))
    ∧ (List.length docs ≤ 100)%nat
    ∧ StronglySorted newest_first docs
    ∧ (∀ d, d ∈ docs → d ∈ payments (db w))
    ∧ (∀ b, buyer_id = Some b → b ≠ "" →
         ∀ d, d ∈ docs → fields d !! "buyer_id" = Some (VStr b))
    ∧ (ids_ascending (payments (db w)) →
       docs = take 100 (reverse (List.filter (paid_by buyer_id) (payments (db w))))).
Proof.
  set (filt := match truthy buyer_id with
               | Some b => {["buyer_id" := QField (CEq (VStr b))]}
               | None => ∅
               end : filter_spec).
  assert (Hfilt : ∀ l, List.filter (selects filt) l = List.filter (paid_by buyer_id) l).
  { intros l. apply filter_ext. intros s. unfold filt, paid_by.
    destruct (truthy buyer_id); [apply selects_buyer | apply matches_empty]. }
  exists (cursor_limit 100
            (cursor_sort ("_id", -1) (List.filter (selects filt) (payments (db w))))).
  split; [|split; [|split; [|split; [|split]]]].
  - unfold list_payments, find. run. reflexivity.
  - rewrite cursor_limit_clamped by lia. rewrite length_take. lia.
  - rewrite cursor_limit_clamped by lia. apply newest_sorted_take.
  - intros d Hd. apply elem_of_cursor_limit, elem_of_cursor_sort in Hd.
    apply list_elem_of_In, filter_In in Hd as [Hd _]. by apply list_elem_of_In.
  - intros b Hb Hne d Hd. apply elem_of_cursor_limit, elem_of_cursor_sort in Hd.
    rewrite Hfilt in Hd. apply list_elem_of_In, filter_In in Hd as [_ Hd].
    unfold paid_by in Hd.
    assert (Ht : truthy buyer_id = Some b) by by apply truthy_Some.
    rewrite Ht in Hd. by apply is_str_spec.
  - intros Hasc. rewrite cursor_limit_clamped by lia. rewrite Hfilt.
    by rewrite cursor_sort_ascending by by apply ids_ascending_filter.
Qed.

(** X12. [admin_list_users] hands out every listed user with all stored
    fields, the password_hash among them. A limit of at least 1 gives at
    most that many users and at most 200; a limit of 0 reaches the cursor as
    0, which means no limit, and gives every stored user. *)
Theorem admin_list_users_exposes_hashes (limit : Z) (w : World) :
  ∃ us : list stored,
    admin_list_users limit w
    = (Return (map public us), mkWorld (db w) (clock w) (log w ++ [Find user]))
    ∧ (∀ u, u ∈ us →
         u ∈ users (db w)
         ∧ public u !! "password_hash" = fields u !! "password_hash")
    ∧ StronglySorted newest_first us
    ∧ (1 ≤ limit →
       (List.length us ≤ 200)%nat ∧ (Z.of_nat (List.length us) ≤ limit))
    ∧ (limit = 0 → us ≡ₚ users (db w)).
Proof.
  exists (cursor_limit (Z.min limit 200)
            (cursor_sort ("_id", -1) (List.filter (selects ∅) (users (db w))))).
  assert (Hall : List.filter (selects ∅) (users (db w)) = users (db w)).
  { apply filter_all. intros x. apply matches_empty. }
  split; [|split; [|split; [|split]]].
  - unfold admin_list_users, find. run. reflexivity.
  - intros u Hu. apply elem_of_cursor_limit, elem_of_cursor_sort in Hu.
    rewrite Hall in Hu. split; [done|]. by apply public_lookup.
  - unfold cursor_limit. destruct (Z.eqb _ 0).
    + apply cursor_sort_id_desc_sorted.
    + apply newest_sorted_take.
  - intros Hlim. rewrite cursor_limit_clamped by lia. rewrite length_take. lia.
  - intros ->. change (Z.min 0 200) with 0. unfold cursor_limit. simpl.
    by rewrite cursor_sort_perm, Hall.
Qed.

(** ** Price bounds of a property listing *)

Section Prices.

Variable regex_search : string → string → string → bool.

Lemma list_properties_filter_price q city state property_type min_price max_price
    bedrooms bathrooms furnished parking :
  is_Some min_price ∨ is_Some max_price →
  list_properties_filter regex_search q city state property_type min_price max_price
      bedrooms bathrooms furnished parking !! "price"
  = Some (QField (CRange min_price max_price)).
Proof.
  intros Hsome. unfold list_properties_filter.
  assert (Hb : bool_decide (is_Some min_price) || bool_decide (is_Some max_price) = true).
  { apply orb_true_iff. rewrite !bool_decide_eq_true. exact Hsome. }
  rewrite Hb. clear Hb Hsome.
  destruct (truthy q); [rewrite lookup_insert_ne by done|]; apply lookup_insert_eq.
Qed.

(** X13. Every item [list_properties] returns has a price that is a number,
    an integer or a double, not below min_price, when one is given, and not
    above max_price, when one is given; the bounds are compared with the
    number the price holds, of either kind. *)
Theorem list_properties_price_in_range q city state property_type min_price max_price
    bedrooms bathrooms furnished parking sort skip limit (w : World) :
  ∃ l : Listing,
    fst (list_properties regex_search q city state property_type min_price max_price
           bedrooms bathrooms furnished parking sort skip limit w) = Return l
    ∧ count l = Z.of_nat (List.length (items l))
    ∧ (is_Some min_price ∨ is_Some max_price →
       ∀ item : doc, item ∈ items l →
         ∃ p : value,
           item !! "price" = Some p
           ∧ is_number p = true
           ∧ (∀ lo, min_price = Some lo → num_leb (VFloat lo) p = true)
           ∧ (∀ hi, max_price = Some hi → num_leb p (VFloat hi) = true)).
Proof.
  rewrite list_properties_run. eexists. split; [reflexivity|].
  split; [reflexivity|].
  cbn [items fst]. intros Hsome item Hitem.
  apply list_elem_of_fmap in Hitem as (s & -> & Hs).
  apply elem_of_cursor_limit, elem_of_skipped in Hs.
  apply elem_of_cursor_sort in Hs.
  apply list_elem_of_In, filter_In in Hs as [_ Hsel].
  unfold selects in Hsel.
  pose proof (matches_lookup _ _ _ _ Hsel
                (list_properties_filter_price q city state property_type min_price
                   max_price bedrooms bathrooms furnished parking Hsome)) as Hq.
  clear Hsel. simpl in Hq. rewrite document_lookup_ne in Hq by done.
  rewrite public_lookup by done.
  destruct (fields s !! "price") as [p|]; [|discriminate Hq].
  apply andb_true_iff in Hq as [Hnum Hq].
  exists p. split; [reflexivity|]. split; [exact Hnum|].
  unfold in_range in Hq. apply andb_true_iff in Hq as [Hlo Hhi].
  split.
  - intros lo ->. exact Hlo.
  - intros hi ->. exact Hhi.
Qed.

End Prices.

(** ** Creating a message *)

Lemma message_dump_fields (m : Message.t) :
  Message.model_dump m !! "sender_id" = Some (VStr (Message.sender_id m))
  ∧ Message.model_dump m !! "receiver_id" = Some (VStr (Message.receiver_id m))
  ∧ Message.model_dump m !! "is_read" = Some (VBool (Message.is_read m)).
Proof.
  unfold Message.model_dump. split; [|split];
    repeat (rewrite lookup_insert_ne by done); by rewrite lookup_insert_eq.
Qed.

(** X14. [create_message] checks the sender, then the receiver, then a
    non-empty property_id, and stops at the first that is a well-formed
    identifier of nothing stored: its 404 names the missing user's id as the
    request spelled it. When all resolve, the request's fields, is_read as
    the request has it, are appended as one message under the next
    identifier of the store, which is returned. *)
Theorem create_message_checks_in_order (req : Message.t) (s : ObjectId) (w : World) :
  let r := create_message req w in
  ObjectId_of_str (Message.sender_id req) = Some s →
  ((∀ u, u ∈ users (db w) → oid u ≠ s) →
   r = (Raise (HTTPException 404
                 (String.append "User not found: " (Message.sender_id req))),
        mkWorld (db w) (clock w) (log w ++ [FindOne user])))
  ∧ ((∃ u, u ∈ users (db w) ∧ oid u = s) →
     ∀ rcv : ObjectId, ObjectId_of_str (Message.receiver_id req) = Some rcv →
       ((∀ u, u ∈ users (db w) → oid u ≠ rcv) →
        fst r = Raise (HTTPException 404
                         (String.append "User not found: " (Message.receiver_id req)))
        ∧ db (snd r) = db w)
       ∧ ((∃ u, u ∈ users (db w) ∧ oid u = rcv) →
          (∀ pid p, Message.property_id req = Some pid → pid ≠ "" →
             ObjectId_of_str pid = Some p →
             (∀ x, x ∈ properties (db w) → oid x ≠ p) →
             fst r = Raise (HTTPException 404 "Property not found")
             ∧ db (snd r) = db w)
          ∧ (Message.property_id req = None
             ∨ Message.property_id req = Some ""
             ∨ (∃ pid p, Message.property_id req = Some pid
                         ∧ ObjectId_of_str pid = Some p
                         ∧ ∃ x, x ∈ properties (db w) ∧ oid x = p) →
             fst r = Return (id_response (str_of_ObjectId (next_oid (db w))))
             ∧ messages (db (snd r))
               = messages (db w)
                 ++ [mkStored (next_oid (db w)) (Message.model_dump req)]
             ∧ Message.model_dump req !! "is_read"
               = Some (VBool (Message.is_read req))
             ∧ users (db (snd r)) = users (db w)
             ∧ properties (db (snd r)) = properties (db w)
             ∧ payments (db (snd r)) = payments (db w)))).
Proof.
  intros r Hs. subst r. unfold create_message, find_one, create_document. split.
  - intros Habs. run. rewrite Hs. simpl.
    by rewrite find_by_id_absent.
  - intros Hsender rcv Hr. apply find_by_id_present in Hsender as [u Hu]. split.
    + intros Habs. run. rewrite Hs. simpl. rewrite Hu. simpl.
      rewrite Hr. simpl. rewrite find_by_id_absent by done. simpl.
      split; [reflexivity|]. same_db.
    + intros Hreceiver. apply find_by_id_present in Hreceiver as [v Hv]. split.
      * intros pid p Hpid Hne Hp Habs.
        assert (Ht : truthy (Message.property_id req) = Some pid)
          by by apply truthy_Some.
        run. rewrite Hs. simpl. rewrite Hu. simpl. rewrite Hr. simpl.
        rewrite Hv. simpl. rewrite Ht. simpl. rewrite Hp. simpl.
        rewrite find_by_id_absent by done. simpl.
        split; [reflexivity|]. same_db.
      * intros Hprop.
        destruct (message_dump_fields req) as (_ & _ & Hread).
        assert (Hcases : truthy (Message.property_id req) = None
                         ∨ ∃ pid p x, truthy (Message.property_id req) = Some pid
                                      ∧ ObjectId_of_str pid = Some p
                                      ∧ List.find (selects (by_id p))
                                          (properties (db w)) = Some x).
        { destruct Hprop as [Hn|[He|(pid & p & Hpid & Hp & Hex)]].
          - left. apply truthy_None. by left.
          - left. apply truthy_None. by right.
          - apply find_by_id_present in Hex as [x Hx].
            destruct (truthy (Message.property_id req)) as [pid'|] eqn:Et; [|by left].
            right. apply truthy_Some in Et as [Et _].
            assert (pid' = pid) as -> by congruence. by exists pid, p, x. }
        clear Hprop.
        run. rewrite Hs. simpl. rewrite Hu. simpl. rewrite Hr. simpl.
        rewrite Hv. simpl.
        destruct Hcases as [Ht|(pid & p & x & Ht & Hp & Hx)]; rewrite Ht; simpl.
        -- repeat split; first [reflexivity | exact Hread].
        -- rewrite Hp. simpl. rewrite Hx. simpl.
           repeat split; first [reflexivity | exact Hread].
Qed.

(** ** Identifiers stay in order *)

#[local] Instance collection_eq_dec : EqDecision collection.
Proof. solve_decision. Defined.

Lemma get_set_collection (c c' : collection) (l : list stored) (d : Database) :
  get_collection c' (set_collection c l d)
  = if decide (c = c') then l else get_collection c' d.
Proof. destruct c, c'; reflexivity. Qed.

Lemma next_oid_set_collection (c : collection) (l : list stored) (d : Database) :
  next_oid (set_collection c l d) = next_oid d.
Proof. by destruct c. Qed.

Lemma ids_ascending_snoc (l : list stored) (x : stored) :
  ids_ascending l → (∀ y, y ∈ l → (oid y < oid x)%N) → ids_ascending (l ++ [x]).
Proof.
  intros Hl Hx. unfold ids_ascending. apply StronglySorted_app_2; [|done|].
  - intros a b Ha Hb. apply list_elem_of_singleton in Hb as ->. by apply Hx.
  - repeat constructor.
Qed.

Lemma update_first_oids p g (l : list stored) :
  (∀ s, oid (g s) = oid s) →
  oid <$> (update_first p g l).1 = oid <$> l.
Proof.
  intros Hg. induction l as [|s l IH]; [done|]. cbn [update_first].
  destruct (p s); [cbn [fst]; by rewrite !fmap_cons, Hg|].
  destruct (update_first p g l) as [rest n]. cbn [fst] in *.
  by rewrite !fmap_cons, IH.
Qed.

Lemma ids_ascending_oids (l l' : list stored) :
  oid <$> l = oid <$> l' → ids_ascending l → ids_ascending l'.
Proof.
  intros Heq Hl.
  assert (Hs : ∀ k, StronglySorted N.lt (oid <$> k) → ids_ascending k).
  { intros k. induction k as [|a k IH]; [constructor|].
    rewrite fmap_cons. intros H.
    apply StronglySorted_inv in H as [Hk Ha]. constructor; [by apply IH|].
    rewrite Forall_fmap in Ha. exact Ha. }
  apply Hs. rewrite <- Heq.
  apply (StronglySorted_fmap oid (λ a b, (oid a < oid b)%N) N.lt); [done|exact Hl].
Qed.

Lemma below_oids (n : N) (l l' : list stored) :
  oid <$> l = oid <$> l' →
  (∀ x, x ∈ l → (oid x < n)%N) → ∀ x, x ∈ l' → (oid x < n)%N.
Proof.
  intros Heq Hl x Hx.
  assert (Hin : oid x ∈ oid <$> l) by (rewrite Heq; by apply list_elem_of_fmap_2).
  apply list_elem_of_fmap in Hin as (y & -> & Hy). by apply Hl.
Qed.

Lemma delete_first_sublist p (l : list stored) : (delete_first p l).1 `sublist_of` l.
Proof.
  induction l as [|s l IH]; simpl; [done|].
  destruct (p s); simpl; [by apply sublist_cons|].
  destruct (delete_first p l) as [rest n]. simpl in *. by apply sublist_skip.
Qed.

Lemma ids_ascending_sublist (l l' : list stored) :
  l' `sublist_of` l → ids_ascending l → ids_ascending l'.
Proof.
  intros Hsub Hl. revert l' Hsub. induction Hl as [|a l Hl IH Ha]; intros l' Hsub.
  - apply sublist_nil_r in Hsub as ->. constructor.
  - apply sublist_cons_r in Hsub as [Hsub|(k & -> & Hsub)]; [by apply IH|].
    constructor; [by apply IH|].
    apply Forall_forall. intros x Hx. rewrite Forall_forall in Ha. apply Ha.
    by eapply elem_of_sublist.
Qed.

Lemma keeps_ret {A} (a : A) : keeps_order (mret a).
Proof. by intros w H. Qed.

Lemma keeps_raise {A} (e : exn) : keeps_order (raise e : M A).
Proof. by intros w H. Qed.

Lemma keeps_bind {A B} (m : M A) (k : A → M B) :
  keeps_order m → (∀ a, keeps_order (k a)) → keeps_order (m ≫= k).
Proof.
  intros Hm Hk w Hw. unfold mbind, M_bind, bind.
  specialize (Hm w Hw). destruct (m w) as [[a|e] w']; simpl in *; [|done].
  by apply Hk.
Qed.

Lemma keeps_to_object_id (s : string) : keeps_order (to_object_id s).
Proof. unfold to_object_id. destruct (ObjectId_of_str s); by intros w H. Qed.

Lemma keeps_now_utc : keeps_order now_utc.
Proof. by intros w H. Qed.

Lemma keeps_find_one c f : keeps_order (find_one c f).
Proof. by intros w H. Qed.

Lemma keeps_find c f : keeps_order (find c f).
Proof. by intros w H. Qed.

Lemma keeps_update_one c f update : keeps_order (update_one c f update).
Proof.
  intros w [Hasc Hbelow]. unfold update_one.
  destruct (doc_encodable update); [|by split].
  unfold apply_update. run.
  pose proof (update_first_oids (selects f) (set_fields update)
                (get_collection c (db w)) (λ s, eq_refl)) as Hoids.
  destruct (update_first _ _ _) as [l n]. simpl in *.
  split.
  - intros c'. rewrite get_set_collection. case_decide; [|apply Hasc].
    eapply ids_ascending_oids; [symmetry; exact Hoids|apply Hasc].
  - intros c' x. rewrite get_set_collection, next_oid_set_collection.
    case_decide; [|apply Hbelow].
    eapply below_oids; [symmetry; exact Hoids|apply Hbelow].
Qed.

Lemma keeps_delete_one c f : keeps_order (delete_one c f).
Proof.
  intros w [Hasc Hbelow]. unfold delete_one. run.
  pose proof (delete_first_sublist (selects f) (get_collection c (db w))) as Hsub.
  destruct (delete_first _ _) as [l n]. simpl in *.
  split.
  - intros c'. rewrite get_set_collection. case_decide; [|apply Hasc].
    eapply ids_ascending_sublist; [exact Hsub|apply Hasc].
  - intros c' x. rewrite get_set_collection, next_oid_set_collection.
    case_decide; [|apply Hbelow].
    intros Hx. apply (Hbelow c). by eapply elem_of_sublist.
Qed.

Lemma create_document_db (c : collection) (data : doc) (w : World) :
  (∀ c', get_collection c' (db (snd (create_document c data w)))
         = if decide (c = c')
           then get_collection c (db w) ++ [mkStored (next_oid (db w)) data]
           else get_collection c' (db w))
  ∧ next_oid (db (snd (create_document c data w))) = N.succ (next_oid (db w)).
Proof.
  unfold create_document. run. split; [|reflexivity].
  intros c'. destruct c, c'; reflexivity.
Qed.

Lemma keeps_create_document c data : keeps_order (create_document c data).
Proof.
  intros w [Hasc Hbelow].
  destruct (create_document_db c data w) as [Hget Hnext]. split.
  - intros c'. rewrite Hget. case_decide; [|apply Hasc].
    apply ids_ascending_snoc; [apply Hasc|]. intros y Hy. by apply (Hbelow c).
  - intros c' x. rewrite Hget, Hnext. case_decide.
    + intros Hx. apply elem_of_app in Hx as [Hx|Hx].
      * apply (Hbelow c) in Hx. lia.
      * apply list_elem_of_singleton in Hx as ->. simpl. lia.
    + intros Hx. apply (Hbelow c') in Hx. lia.
Qed.

Lemma keeps_for_each {A} (l : list A) (body : A → M unit) :
  (∀ x, keeps_order (body x)) → keeps_order (for_each l body).
Proof.
  intros Hbody. induction l as [|x l IH]; simpl; [apply keeps_ret|].
  apply keeps_bind; [apply Hbody | intros _; apply IH].
Qed.

Ltac keeps :=
  repeat first
    [ apply keeps_ret | apply keeps_raise | apply keeps_to_object_id
    | apply keeps_now_utc | apply keeps_find_one | apply keeps_find
    | apply keeps_update_one | apply keeps_delete_one
    | apply keeps_create_document
    | apply keeps_for_each; intros ?
    | apply keeps_bind; [|intros ?]
    | match goal with
      | |- keeps_order (match ?x with _ => _ end) => destruct x
      | |- keeps_order (if ?b then _ else _) => destruct b
      end ].

(** X15. Every handler that writes keeps the identifiers of each
    collection in ascending order and below the next identifier of the
    store, so that the order of [_id] stays the order of insertion. *)
Theorem writers_keep_identifier_order (sha256_hexdigest : string → string)
    (w : World) :
  store_ok (db w) →
  (∀ req, store_ok (db (snd (register sha256_hexdigest req w))))
  ∧ (∀ req, store_ok (db (snd (create_property req w))))
  ∧ (∀ id body, store_ok (db (snd (update_property id body w))))
  ∧ (∀ id, store_ok (db (snd (delete_property id w))))
  ∧ (∀ id body, store_ok (db (snd (verify_property id body w))))
  ∧ (∀ req, store_ok (db (snd (create_message req w))))
  ∧ (∀ req, store_ok (db (snd (create_payment req w))))
  ∧ (∀ id body, store_ok (db (snd (update_payment_status id body w))))
  ∧ (∀ id body, store_ok (db (snd (admin_update_user_status id body w)))).
Proof.
  intros Hok.
  assert (Hregister : ∀ req, keeps_order (register sha256_hexdigest req))
    by (intros req; unfold register; keeps).
  assert (Hcreate_property : ∀ req, keeps_order (create_property req))
    by (intros req; unfold create_property; keeps).
  assert (Hupdate_property : ∀ id body, keeps_order (update_property id body))
    by (intros id body; unfold update_property; keeps).
  assert (Hdelete_property : ∀ id, keeps_order (delete_property id))
    by (intros id; unfold delete_property; keeps).
  assert (Hverify_property : ∀ id body, keeps_order (verify_property id body))
    by (intros id body; unfold verify_property; keeps).
  assert (Hcreate_message : ∀ req, keeps_order (create_message req))
    by (intros req; unfold create_message; keeps).
  assert (Hcreate_payment : ∀ req, keeps_order (create_payment req))
    by (intros req; unfold create_payment; keeps).
  assert (Hupdate_payment : ∀ id body, keeps_order (update_payment_status id body))
    by (intros id body; unfold update_payment_status; keeps).
  assert (Hadmin : ∀ id body, keeps_order (admin_update_user_status id body))
    by (intros id body; unfold admin_update_user_status; keeps).
  split; [intros req; by apply Hregister|].
  split; [intros req; by apply Hcreate_property|].
  split; [intros id body; by apply Hupdate_property|].
  split; [intros id; by apply Hdelete_property|].
  split; [intros id body; by apply Hverify_property|].
  split; [intros req; by apply Hcreate_message|].
  split; [intros req; by apply Hcreate_payment|].
  split; [intros id body; by apply Hupdate_payment|].
  intros id body; by apply Hadmin.
Qed.

(** ** Deleting a property and asking for it *)

Lemma ids_ascending_split (l1 l2 : list stored) (s : stored) :
  ids_ascending (l1 ++ s :: l2) →
  Forall (λ x, oid x ≠ oid s) l1 ∧ Forall (λ x, oid x ≠ oid s) l2.
Proof.
  unfold ids_ascending. intros H.
  apply StronglySorted_app in H as (Hcross & _ & Hs).
  apply StronglySorted_inv in Hs as [_ Hl2]. split.
  - apply Forall_forall. intros x Hx.
    specialize (Hcross x s Hx (list_elem_of_here _ _)). lia.
  - eapply Forall_impl; [exact Hl2|]. intros x Hx. simpl in Hx. lia.
Qed.

Lemma delete_property_found (property_id : string) (o : ObjectId) (w : World)
    (l1 l2 : list stored) (s : stored) :
  ObjectId_of_str property_id = Some o →
  properties (db w) = l1 ++ s :: l2 →
  Forall (λ x, oid x ≠ o) l1 →
  oid s = o →
  delete_property property_id w
  = (Return {["deleted" := VBool true]},
     mkWorld (mkDatabase (users (db w)) (l1 ++ l2) (messages (db w))
                (payments (db w)) (next_oid (db w)))
       (clock w) (log w ++ [DeleteOne property])).
Proof.
  intros Hid Hprops Hl1 Hs. unfold delete_property, delete_one. run.
  rewrite Hid. simpl. rewrite Hprops, delete_by_id_found by done. reflexivity.
Qed.

(** X16. Where the identifiers of the properties are in ascending order (so
    no two are equal), a property that [delete_property] has deleted is
    gone: [get_property] with the same identifier answers 404. *)
Theorem delete_then_get_property (property_id : string) (o : ObjectId) (w : World) :
  ObjectId_of_str property_id = Some o →
  ids_ascending (properties (db w)) →
  (∃ x, x ∈ properties (db w) ∧ oid x = o) →
  fst (delete_property property_id w) = Return {["deleted" := VBool true]}
  ∧ fst (get_property property_id (snd (delete_property property_id w)))
    = Raise (HTTPException 404 "Property not found").
Proof.
  intros Hid Hasc (x & Hx & Hox).
  apply list_elem_of_split in Hx as (l1 & l2 & Hsplit).
  rewrite Hsplit in Hasc. apply ids_ascending_split in Hasc as [Hl1 Hl2].
  rewrite Hox in Hl1, Hl2.
  rewrite (delete_property_found _ o w l1 l2 x) by done.
  split; [reflexivity|].
  rewrite (get_property_run _ o) by done. cbn [fst snd db properties].
  rewrite find_by_id_absent; [reflexivity|].
  intros y Hy. apply elem_of_app in Hy as [Hy|Hy].
  - rewrite Forall_forall in Hl1. by apply Hl1.
  - rewrite Forall_forall in Hl2. by apply Hl2.
Qed.

(** ** Worked requests, continued *)

Lemma sample_store_ok : store_ok sample_db.
Proof.
  split.
  - intros c. unfold ids_ascending.
    destruct c; simpl; repeat constructor; simpl; lia.
  - intros c x Hx. destruct c; simpl in Hx;
      repeat (apply elem_of_cons in Hx as [->|Hx]; [simpl; lia|]);
      by apply elem_of_nil in Hx.
Qed.

(** X1, witness. *)
Lemma get_property_flat_witness :
  ∃ d : doc,
    fst (get_property id_flat sample_world) = Return d
    ∧ d !! "id" = Some (VStr id_flat)
    ∧ d !! "_id" = None
    ∧ d !! "title" = Some (VStr "Flat").
Proof.
  destruct (get_property_found_or_404 id_flat 3%N sample_world eq_refl)
    as (_ & _ & Hfound).
  destruct (Hfound [] [] flat eq_refl (Forall_nil_2 _) eq_refl)
    as (d & Hd & Hid & Hno & Hrest).
  exists d. split; [exact Hd|]. split; [exact Hid|]. split; [exact Hno|].
  rewrite Hrest; [reflexivity | discriminate | discriminate].
Defined.

(** X2, witness. *)
Lemma delete_property_flat_witness :
  properties (db (snd (delete_property id_flat sample_world))) = [].
Proof.
  destruct (delete_property_removes_one id_flat 3%N sample_world eq_refl)
    as [Hfound _].
  destruct (Hfound [] [] flat eq_refl (Forall_nil_2 _) eq_refl) as (_ & Hprops & _).
  exact Hprops.
Defined.

(** X3, witness. *)
Lemma verify_property_flat_witness :
  ∃ s' : stored,
    properties (db (snd (verify_property id_flat (VerifyRequest.mk true) sample_world)))
    = [s']
    ∧ fields s' !! "verified" = Some (VBool true)
    ∧ fields s' !! "title" = Some (VStr "Flat").
Proof.
  destruct (verify_property_frame id_flat (VerifyRequest.mk true) 3%N sample_world
              eq_refl) as [Hfound _].
  destruct (Hfound [] [] flat eq_refl (Forall_nil_2 _) eq_refl)
    as (s' & _ & Hprops & _ & Hv & _ & Hkeep & _).
  exists s'. split; [exact Hprops|]. split; [exact Hv|].
  rewrite Hkeep; [reflexivity | discriminate | discriminate].
Defined.

(** X4, witness. *)
Lemma suspend_bob_witness :
  ∃ s' : stored,
    users (db (snd (admin_update_user_status id_bob
                      (UserStatusUpdate.mk UserStatus.SUSPENDED) sample_world)))
    = [ann; s']
    ∧ fields s' !! "status" = Some (VStr "SUSPENDED")
    ∧ fields s' !! "password_hash" = Some (VStr "sha256:hunter2").
Proof.
  destruct (admin_update_user_status_frame id_bob
              (UserStatusUpdate.mk UserStatus.SUSPENDED) 2%N sample_world eq_refl)
    as [Hfound _].
  assert (Hann : Forall (λ x, oid x ≠ 2%N) [ann]).
  { constructor; [|constructor]. discriminate. }
  destruct (Hfound [ann] [] bob eq_refl Hann eq_refl)
    as (s' & _ & Husers & _ & Hst & _ & Hkeep & _).
  exists s'. split; [exact Husers|]. split; [exact Hst|].
  rewrite Hkeep; [reflexivity | discriminate | discriminate].
Defined.

(** X5, witness. *)
Lemma create_property_villa_witness :
  fst (create_property villa sample_world)
  = Return (id_response "000000000000000000000008")
  ∧ properties (db (snd (create_property villa sample_world)))
    = [flat; mkStored 8%N (Property.model_dump villa)].
Proof.
  destruct (create_property_owner_checked villa 1%N sample_world eq_refl)
    as [_ Hfound].
  destruct Hfound as (Hret & Hprops & _).
  - exists ann. split; [apply list_elem_of_here | reflexivity].
  - split; [exact Hret | exact Hprops].
Defined.

(** X6, witness. *)
Lemma create_then_get_villa_witness :
  ∃ new_id : string,
    fst (create_property villa sample_world) = Return (id_response new_id)
    ∧ fst (get_property new_id (snd (create_property villa sample_world)))
      = Return (<["id" := VStr new_id]> (Property.model_dump villa)).
Proof.
  apply (create_then_get_property villa 1%N sample_world).
  - reflexivity.
  - exists ann. split; [apply list_elem_of_here | reflexivity].
  - intros x Hx. simpl in Hx. apply list_elem_of_singleton in Hx as ->. reflexivity.
  - reflexivity.
Defined.

(** X7, witness. *)
Lemma register_then_login_cy_witness :
  ∃ answer : doc,
    fst (login sample_digest (LoginRequest.mk "cy@example.org" "pw")
           (snd (register sample_digest cy_request sample_world)))
    = Return answer
    ∧ answer !! "id" = Some (VStr "000000000000000000000008").
Proof.
  destruct (register_then_login sample_digest cy_request sample_world
              (id_response "000000000000000000000008") eq_refl)
    as [(answer & Hlogin & _ & Hid & _) _].
  exists answer. split; [exact Hlogin | exact Hid].
Defined.

(** X8, witness. *)
Lemma suspended_bob_cannot_login_witness :
  fst (login sample_digest (LoginRequest.mk "bob@example.org" "hunter2")
         (snd (admin_update_user_status id_bob
                 (UserStatusUpdate.mk UserStatus.SUSPENDED) sample_world)))
  = Raise (HTTPException 401 "Invalid credentials").
Proof.
  apply (suspended_user_cannot_login sample_digest id_bob 2%N
           (LoginRequest.mk "bob@example.org" "hunter2") [ann] [] bob sample_world).
  - reflexivity.
  - reflexivity.
  - constructor; [|constructor]. discriminate.
  - reflexivity.
  - intros x Hx. simpl in Hx. apply list_elem_of_singleton in Hx as ->.
    intros H. vm_compute in H. discriminate H.
Defined.

(** X14, witness. *)
Lemma create_message_greeting_witness :
  fst (create_message greeting sample_world)
  = Return (id_response "000000000000000000000008")
  ∧ messages (db (snd (create_message greeting sample_world)))
    = [question; answer; note; mkStored 8%N (Message.model_dump greeting)].
Proof.
  destruct (create_message_checks_in_order greeting 2%N sample_world eq_refl)
    as [_ Hsender].
  assert (Hbob : ∃ u, u ∈ users (db sample_world) ∧ oid u = 2%N).
  { exists bob. split; [apply list_elem_of_further, list_elem_of_here | reflexivity]. }
  assert (Hann : ∃ u, u ∈ users (db sample_world) ∧ oid u = 1%N).
  { exists ann. split; [apply list_elem_of_here | reflexivity]. }
  destruct (Hsender Hbob 1%N eq_refl) as [_ Hreceiver].
  destruct (Hreceiver Hann) as [_ Hstore].
  destruct (Hstore (or_introl eq_refl)) as (Hret & Hmsgs & _).
  split; [exact Hret | exact Hmsgs].
Defined.

(** X15, witness. *)
Lemma greeting_keeps_order_witness :
  store_ok (db (snd (create_message greeting sample_world))).
Proof.
  destruct (writers_keep_identifier_order sample_digest sample_world sample_store_ok)
    as (_ & _ & _ & _ & _ & Hmsg & _).
  apply Hmsg.
Defined.

(** X16, witness. *)
Lemma delete_then_get_flat_witness :
  fst (get_property id_flat (snd (delete_property id_flat sample_world)))
  = Raise (HTTPException 404 "Property not found").
Proof.
  destruct (delete_then_get_property id_flat 3%N sample_world) as [_ Hget].
  - reflexivity.
  - apply (proj1 sample_store_ok property).
  - exists flat. split; [apply list_elem_of_here | reflexivity].
  - exact Hget.
Defined.
